(** * gem.multiagent.parallel_env: the agent-set lifecycle of [ParallelEnv]

    A shallow embedding of [src/gem/multiagent/parallel_env.py] and of the
    concrete environment [SimpleParallelEnv] of
    [src/tests/test_multiagent/test_parallel_env.py], followed by the
    properties of validation, pruning and reset.

    Python values are modelled as follows:
    - [str] as [string], read as a sequence of code points below 256;
    - [int] as [Z] (Python integers are unbounded);
    - [float] as the kernel's binary64 [float];
    - [Dict[str, V]] as [gmap string V] and [set] as [gset string]: only
      lookups, key sets and equality of dictionaries are observed, and none of
      them depends on insertion order;
    - a [list] object as its identity together with its items, see [PyList];
    - a method as a computation in the monad [M], which threads the object
      and keeps it when an exception is raised. *)

From Stdlib Require Import ZArith Ascii.
From Stdlib Require String.
From Corelib Require Import PrimFloat.
From stdpp Require Import base option list sorting gmap strings pretty.

Local Open Scope Z_scope.

(** ** Python built-ins used by the source *)

Module Py.

(** [sorted(X)] for a set of strings.  [str] comparison is lexicographic
    on code points, which is [String.le].  The iteration order of a Python
    set is unspecified; the result of [sorted] does not depend on it (see
    [sorted_unique] below), so any enumeration of the set can be sorted. *)
Definition sorted (X : gset string) : list string :=
  merge_sort String.le (elements X).

(** [sep.join(parts)] *)
Definition join (sep : string) (parts : list string) : string :=
  String.concat sep parts.

(** [str.isprintable] on a single code point below 256: the C0 and C1
    controls, DEL, the no-break space and the soft hyphen are not
    printable. *)
Definition isprintable (c : ascii) : bool :=
  let n := N_of_ascii c in
  ((32 <=? n)%N && (n <? 127)%N) || ((161 <=? n)%N && negb (n =? 173)%N).

Definition hex_digit (n : N) : ascii :=
  if (n <? 10)%N then ascii_of_N (48 + n) else ascii_of_N (87 + n).

Definition squote : ascii := "'"%char.
Definition dquote : ascii := "034"%char.
Definition backslash : ascii := "\"%char.

(** One character of [repr(s)], given the quote that was chosen. *)
Definition repr_char (quote c : ascii) : string :=
  if Ascii.eqb c quote || Ascii.eqb c backslash then String backslash (String c "")
  else if Ascii.eqb c "009"%char then "\t"
  else if Ascii.eqb c "010"%char then "\n"
  else if Ascii.eqb c "013"%char then "\r"
  else if isprintable c then String c ""
  else let n := N_of_ascii c in
       "\x" +:+ String (hex_digit (n / 16)) (String (hex_digit (n mod 16)) "").

Fixpoint has_char (c : ascii) (s : string) : bool :=
  match s with
  | EmptyString => false
  | String d s' => Ascii.eqb c d || has_char c s'
  end.

Fixpoint repr_body (quote : ascii) (s : string) : string :=
  match s with
  | EmptyString => ""
  | String c s' => repr_char quote c +:+ repr_body quote s'
  end.

(** [repr(s)] for a string: single quotes, unless the string has a single
    quote and no double quote. *)
Definition repr_str (s : string) : string :=
  let quote := if has_char squote s && negb (has_char dquote s)
               then dquote else squote in
  String quote (repr_body quote s +:+ String quote "").

(** [repr(l)] for a list of strings, which is what an f-string prints. *)
Definition repr_list (l : list string) : string :=
  "[" +:+ join ", " (repr_str <$> l) +:+ "]".

(** [str(n)] for an integer. *)
Definition str_int (n : Z) : string := pretty n.

(** [d.get(k, default)] *)
Definition get {V} (d : gmap string V) (k : string) (default : V) : V :=
  match d !! k with
  | Some v => v
  | None => default
  end.

(** [x in s] for strings: [x] occurs in [s]. *)
Definition contains (s x : string) : Prop :=
  ∃ before after, s = before +:+ x +:+ after.

End Py.

(** ** Objects, exceptions and the method monad *)

(** A Python [list] object: its identity (what [is] compares) and its items.
    The source never updates a list in place ([self.agents] is rebound to a
    new list by [copy()] and by the comprehension of [_remove_dead_agents]),
    so the items of an object never change and can be kept with its
    identity.  Two fields are aliased when they hold the same identity. *)
Record PyList := { list_id : nat; items : list string }.

(** The value of an entry of an info dictionary ([{"step": n}] or
    [{"initial": True}]). *)
Inductive info_value :=
  | InfoInt (n : Z)
  | InfoBool (b : bool).

(** The attributes of an environment instance, with the allocation counter
    [next_id] of the interpreter (the identity given to the next new list). *)
Record Env := {
  metadata : gmap string bool;
  possible_agents : PyList;
  agents : PyList;
  step_count : Z;
  max_steps : Z;
  terminations : gmap string bool;
  truncations : gmap string bool;
  rewards : gmap string float;
  infos : gmap string (gmap string info_value);
  next_id : nat
}.

Definition set_metadata (v : gmap string bool) (self : Env) : Env :=
  {| metadata := v; possible_agents := possible_agents self;
     agents := agents self; step_count := step_count self;
     max_steps := max_steps self; terminations := terminations self;
     truncations := truncations self; rewards := rewards self;
     infos := infos self; next_id := next_id self |}.
Definition set_possible_agents (v : PyList) (self : Env) : Env :=
  {| metadata := metadata self; possible_agents := v;
     agents := agents self; step_count := step_count self;
     max_steps := max_steps self; terminations := terminations self;
     truncations := truncations self; rewards := rewards self;
     infos := infos self; next_id := next_id self |}.
Definition set_agents (v : PyList) (self : Env) : Env :=
  {| metadata := metadata self; possible_agents := possible_agents self;
     agents := v; step_count := step_count self;
     max_steps := max_steps self; terminations := terminations self;
     truncations := truncations self; rewards := rewards self;
     infos := infos self; next_id := next_id self |}.
Definition set_step_count (v : Z) (self : Env) : Env :=
  {| metadata := metadata self; possible_agents := possible_agents self;
     agents := agents self; step_count := v;
     max_steps := max_steps self; terminations := terminations self;
     truncations := truncations self; rewards := rewards self;
     infos := infos self; next_id := next_id self |}.
Definition set_max_steps (v : Z) (self : Env) : Env :=
  {| metadata := metadata self; possible_agents := possible_agents self;
     agents := agents self; step_count := step_count self;
     max_steps := v; terminations := terminations self;
     truncations := truncations self; rewards := rewards self;
     infos := infos self; next_id := next_id self |}.
Definition set_terminations (v : gmap string bool) (self : Env) : Env :=
  {| metadata := metadata self; possible_agents := possible_agents self;
     agents := agents self; step_count := step_count self;
     max_steps := max_steps self; terminations := v;
     truncations := truncations self; rewards := rewards self;
     infos := infos self; next_id := next_id self |}.
Definition set_truncations (v : gmap string bool) (self : Env) : Env :=
  {| metadata := metadata self; possible_agents := possible_agents self;
     agents := agents self; step_count := step_count self;
     max_steps := max_steps self; terminations := terminations self;
     truncations := v; rewards := rewards self;
     infos := infos self; next_id := next_id self |}.
Definition set_rewards (v : gmap string float) (self : Env) : Env :=
  {| metadata := metadata self; possible_agents := possible_agents self;
     agents := agents self; step_count := step_count self;
     max_steps := max_steps self; terminations := terminations self;
     truncations := truncations self; rewards := v;
     infos := infos self; next_id := next_id self |}.
Definition set_infos (v : gmap string (gmap string info_value)) (self : Env) : Env :=
  {| metadata := metadata self; possible_agents := possible_agents self;
     agents := agents self; step_count := step_count self;
     max_steps := max_steps self; terminations := terminations self;
     truncations := truncations self; rewards := rewards self;
     infos := v; next_id := next_id self |}.
Definition set_next_id (v : nat) (self : Env) : Env :=
  {| metadata := metadata self; possible_agents := possible_agents self;
     agents := agents self; step_count := step_count self;
     max_steps := max_steps self; terminations := terminations self;
     truncations := truncations self; rewards := rewards self;
     infos := infos self; next_id := v |}.

Inductive exn :=
  | ValueError (msg : string)
  | NotImplementedError.

Inductive outcome (A : Type) :=
  | Return (a : A)
  | Raise (e : exn).
Arguments Return {A} a.
Arguments Raise {A} e.

(** A method body: from the object before the call to the object after it
    and either the returned value or the exception that escaped.  An
    exception does not undo assignments made before it. *)
Definition M (A : Type) : Type := Env → Env * outcome A.

Definition ret {A} (a : A) : M A := λ self, (self, Return a).

Definition bind {A B} (m : M A) (k : A → M B) : M B := λ self,
  match m self with
  | (self', Return a) => k a self'
  | (self', Raise e) => (self', Raise e)
  end.

Definition raise {A} (e : exn) : M A := λ self, (self, Raise e).

(** Reading an attribute, and assigning one. *)
Definition read {A} (field : Env → A) : M A := λ self, (self, Return (field self)).
Definition assign (update : Env → Env) : M unit := λ self, (update self, Return tt).

(** A new list object with the given items. *)
Definition new_list (l : list string) : M PyList := λ self,
  (set_next_id (S (next_id self)) self,
   Return {| list_id := next_id self; items := l |}).

(** [l.copy()] *)
Definition copy (l : PyList) : M PyList := new_list (items l).

Declare Scope py_scope.
Delimit Scope py_scope with py.
Notation "x <- m ;; k" := (bind m (λ x, k))
  (at level 100, m at next level, right associativity) : py_scope.
Notation "m ;; k" := (bind m (λ _, k))
  (at level 100, right associativity) : py_scope.

(** The object after a call, and the call's outcome. *)
Definition after {A} (m : M A) (self : Env) : Env := (m self).1.
Definition result {A} (m : M A) (self : Env) : outcome A := (m self).2.

Local Open Scope py_scope.

(** [{k: value(k) for k in keys}] *)
Definition dict_comprehension {V} (value : string → V) (keys : list string)
  : gmap string V :=
  foldl (λ d k, <[k := value k]> d) ∅ keys.

(** ** The base class [MultiAgentEnv] *)

Module MultiAgentEnv.

(** An object on which no constructor has run yet; the fields are
    placeholders until [__init__] assigns them. *)
Definition new_object : Env :=
  {| metadata := ∅;
     possible_agents := {| list_id := 0; items := [] |};
     agents := {| list_id := 0; items := [] |};
     step_count := 0; max_steps := 0;
     terminations := ∅; truncations := ∅; rewards := ∅; infos := ∅;
     next_id := 0 |}.

(** Modelled from the spec: the constructor of [MultiAgentEnv]
    (gem/multiagent/multi_agent_env.py is not among the sources).  Section 6
    of the spec lists what the base owns: the possible-agents roster, the
    active-agents sequence and the four per-agent signal mappings; they
    start empty.  [SimpleParallelEnv.__init__] assigns every one of them
    again. *)
Definition __init__ : M unit :=
  roster <- new_list [] ;;
  assign (set_possible_agents roster) ;;
  active <- new_list [] ;;
  assign (set_agents active) ;;
  assign (set_terminations ∅) ;;
  assign (set_truncations ∅) ;;
  assign (set_rewards ∅) ;;
  assign (set_infos ∅).

End MultiAgentEnv.

(** ** [class ParallelEnv(MultiAgentEnv)] *)

(** What [step] returns: observations, rewards, terminations, truncations,
    infos. *)
Definition StepResult : Type :=
  gmap string string * gmap string float * gmap string bool *
  gmap string bool * gmap string (gmap string info_value).

Definition ResetResult : Type :=
  gmap string string * gmap string (gmap string info_value).

Module ParallelEnv.

Definition __init__ : M unit :=
  MultiAgentEnv.__init__ ;;
  assign (set_metadata {["is_parallelizable" := true]}).

Definition _validate_actions (actions : gmap string string) : M unit :=
  self_agents <- read agents ;;
  let action_agents : gset string := dom actions in
  let active_agents : gset string := list_to_set (items self_agents) in
  if decide (action_agents ≠ active_agents) then
    let missing := active_agents ∖ action_agents in
    let extra := action_agents ∖ active_agents in
    let error_parts := [] in
    let error_parts :=
      if decide (missing ≠ ∅)
      then error_parts ++
           ["Missing actions for agents: " +:+ Py.repr_list (Py.sorted missing)]
      else error_parts in
    let error_parts :=
      if decide (extra ≠ ∅)
      then error_parts ++
           ["Actions provided for non-active agents: " +:+
            Py.repr_list (Py.sorted extra)]
      else error_parts in
    raise (ValueError (Py.join ". " error_parts))
  else ret tt.

(** The body of the abstract method. *)
Definition step (actions : gmap string string) : M StepResult :=
  _validate_actions actions ;;
  raise NotImplementedError.

Definition reset (seed : option Z) : M ResetResult :=
  raise NotImplementedError.

Definition render : M (option unit) := ret None.

Definition state {Any : Type} : M Any := raise NotImplementedError.

Definition close : M unit := ret tt.

(** The condition of the comprehension in [_remove_dead_agents]. *)
Definition survives (terminations truncations : gmap string bool)
    (agent : string) : bool :=
  negb (Py.get terminations agent false || Py.get truncations agent false).

Definition _remove_dead_agents : M unit :=
  self_agents <- read agents ;;
  self_terminations <- read terminations ;;
  self_truncations <- read truncations ;;
  survivors <- new_list
    (filter (λ agent, survives self_terminations self_truncations agent = true)
            (items self_agents)) ;;
  assign (set_agents survivors).

End ParallelEnv.

(** ** [class SimpleParallelEnv(ParallelEnv)] of the test module *)

Module SimpleParallelEnv.

Definition __init__ : M unit :=
  ParallelEnv.__init__ ;;
  roster <- new_list ["agent1"; "agent2"; "agent3"] ;;
  assign (set_possible_agents roster) ;;
  roster <- read possible_agents ;;
  active <- copy roster ;;
  assign (set_agents active) ;;
  assign (set_step_count 0) ;;
  assign (set_max_steps 10) ;;
  self_agents <- read agents ;;
  assign (set_terminations (dict_comprehension (λ _, false) (items self_agents))) ;;
  self_agents <- read agents ;;
  assign (set_truncations (dict_comprehension (λ _, false) (items self_agents))) ;;
  self_agents <- read agents ;;
  assign (set_rewards (dict_comprehension (λ _, 0%float) (items self_agents))) ;;
  self_agents <- read agents ;;
  assign (set_infos (dict_comprehension (λ _, ∅) (items self_agents))).

(** The loop state of [step]: observations, rewards, terminations, infos. *)
Definition loop_state : Type :=
  gmap string string * gmap string float * gmap string bool *
  gmap string (gmap string info_value).

(** One iteration of [for agent, action in actions.items()]. *)
Definition process_action (count : Z) (acc : loop_state)
    (item : string * string) : loop_state :=
  let '(observations, rewards, terminations, infos) := acc in
  let '(agent, action) := item in
  let observations :=
    <[agent := "Step " +:+ Py.str_int (count + 1) +:+ " result for " +:+
               agent +:+ " after " +:+ action]> observations in
  let rewards :=
    if String.eqb action "good" then <[agent := 1%float]> rewards
    else if String.eqb action "bad" then <[agent := (-1)%float]> rewards
    else <[agent := 0%float]> rewards in
  let terminations :=
    if String.eqb action "terminate" then <[agent := true]> terminations
    else <[agent := false]> terminations in
  let infos := <[agent := {["step" := InfoInt (count + 1)]}]> infos in
  (observations, rewards, terminations, infos).

(** [for agent in self.agents: truncations[agent] = flag] *)
Definition mark_all (flag : bool) (truncations : gmap string bool)
    (active : list string) : gmap string bool :=
  foldl (λ d agent, <[agent := flag]> d) truncations active.

Definition step (actions : gmap string string) : M StepResult :=
  ParallelEnv._validate_actions actions ;;
  count <- read step_count ;;
  let '(observations, rewards, terminations, infos) :=
    foldl (process_action count) (∅, ∅, ∅, ∅) (map_to_list actions) in
  let truncations : gmap string bool := ∅ in
  assign (set_step_count (count + 1)) ;;
  count <- read step_count ;;
  limit <- read max_steps ;;
  self_agents <- read agents ;;
  let truncations :=
    if decide (limit ≤ count)
    then mark_all true truncations (items self_agents)
    else mark_all false truncations (items self_agents) in
  assign (set_terminations terminations) ;;
  assign (set_truncations truncations) ;;
  assign (set_rewards rewards) ;;
  assign (set_infos infos) ;;
  ParallelEnv._remove_dead_agents ;;
  ret (observations, rewards, terminations, truncations, infos).

(** One iteration of [for agent in self.agents] in [reset]. *)
Definition initial_entry (acc : ResetResult) (agent : string) : ResetResult :=
  let '(observations, infos) := acc in
  (<[agent := "Initial observation for " +:+ agent]> observations,
   <[agent := {["initial" := InfoBool true]}]> infos).

(** [super().reset(seed)] is the [reset] of [ParallelEnv], the next class in
    the method resolution order of [SimpleParallelEnv]. *)
Definition reset (seed : option Z) : M ResetResult :=
  ParallelEnv.reset seed ;;
  roster <- read possible_agents ;;
  active <- copy roster ;;
  assign (set_agents active) ;;
  assign (set_step_count 0) ;;
  self_agents <- read agents ;;
  let '(observations, infos) :=
    foldl initial_entry (∅, ∅) (items self_agents) in
  ret (observations, infos).

(** The dictionary returned by [state()]. *)
Record GlobalState := {
  state_step_count : Z;
  state_agents : PyList;
  state_terminations : gmap string bool;
  state_truncations : gmap string bool
}.

Definition state : M GlobalState :=
  count <- read step_count ;;
  self_agents <- read agents ;;
  active <- copy self_agents ;;
  self_terminations <- read terminations ;;
  self_truncations <- read truncations ;;
  ret {| state_step_count := count; state_agents := active;
         state_terminations := self_terminations;
         state_truncations := self_truncations |}.

(** [env = SimpleParallelEnv()] *)
Definition new : Env := after __init__ MultiAgentEnv.new_object.

End SimpleParallelEnv.

(** [env.max_steps = n], as the tests assign it. *)
Definition assign_max_steps (n : Z) : M unit := assign (set_max_steps n).

(** ** Vocabulary of the properties *)

(** [set(self.agents)] *)
Definition active_set (self : Env) : gset string :=
  list_to_set (items (agents self)).

(** The two clauses of the mismatch message. *)
Definition missing_clause (missing : gset string) : string :=
  "Missing actions for agents: " +:+ Py.repr_list (Py.sorted missing).
Definition extra_clause (extra : gset string) : string :=
  "Actions provided for non-active agents: " +:+ Py.repr_list (Py.sorted extra).

(** The message of the mismatch error for the active set and the keys given. *)
Definition mismatch_message (active given : gset string) : string :=
  Py.join ". "
    ((if decide (active ∖ given ≠ ∅) then [missing_clause (active ∖ given)] else []) ++
     (if decide (given ∖ active ≠ ∅) then [extra_clause (given ∖ active)] else [])).

(** The object after a successful [SimpleParallelEnv.step] that computed the
    given signal mappings. *)
Definition stepped (self : Env) (rewards : gmap string float)
    (terminations truncations : gmap string bool)
    (infos : gmap string (gmap string info_value)) : Env :=
  {| metadata := metadata self;
     possible_agents := possible_agents self;
     agents := {| list_id := next_id self;
                  items := filter (λ agent, ParallelEnv.survives terminations
                                              truncations agent = true)
                                  (items (agents self)) |};
     step_count := step_count self + 1;
     max_steps := max_steps self;
     terminations := terminations;
     truncations := truncations;
     rewards := rewards;
     infos := infos;
     next_id := S (next_id self) |}.

(** What one iteration of the loop of [SimpleParallelEnv.step] stores for an
    agent and its action. *)
Definition observation_of (count : Z) (agent action : string) : string :=
  "Step " +:+ Py.str_int (count + 1) +:+ " result for " +:+ agent +:+
  " after " +:+ action.
Definition reward_of (action : string) : float :=
  if String.eqb action "good" then 1%float
  else if String.eqb action "bad" then (-1)%float
  else 0%float.
Definition terminates (action : string) : bool := String.eqb action "terminate".
Definition info_of (count : Z) : gmap string info_value :=
  {["step" := InfoInt (count + 1)]}.

(** A loop that stores [value k v] under [k] for every item [(k, v)]. *)
Definition store_all {V W} (value : string → V → W) (d : gmap string W)
    (l : list (string * V)) : gmap string W :=
  foldl (λ d item, <[item.1 := value item.1 item.2]> d) d l.

(** What a successful [SimpleParallelEnv.step] returns, from the step count,
    the step limit and the active agents of the object and from the actions;
    and the agents that it leaves active. *)
Definition step_outputs (count limit : Z) (active : list string)
    (actions : gmap string string) : StepResult :=
  (store_all (observation_of count) ∅ (map_to_list actions),
   store_all (λ _, reward_of) ∅ (map_to_list actions),
   store_all (λ _, terminates) ∅ (map_to_list actions),
   SimpleParallelEnv.mark_all (bool_decide (limit ≤ count + 1)) ∅ active,
   store_all (λ _ _, info_of count) ∅ (map_to_list actions)).

Definition survivors (active : list string) (out : StepResult) : list string :=
  let '(_, _, terminations, truncations, _) := out in
  filter (λ agent, ParallelEnv.survives terminations truncations agent = true) active.

(** The canonical roster of [SimpleParallelEnv]. *)
Definition roster : list string := ["agent1"; "agent2"; "agent3"].

(** The calls a driver can make on an environment, and the object after a
    sequence of them on a new instance. *)
Inductive call :=
  | CallReset (seed : option Z)
  | CallStep (actions : gmap string string)
  | CallState
  | CallRender
  | CallClose
  | SetMaxSteps (n : Z).

Definition run_call (c : call) (self : Env) : Env :=
  match c with
  | CallReset seed => after (SimpleParallelEnv.reset seed) self
  | CallStep actions => after (SimpleParallelEnv.step actions) self
  | CallState => after SimpleParallelEnv.state self
  | CallRender => after ParallelEnv.render self
  | CallClose => after ParallelEnv.close self
  | SetMaxSteps n => after (assign_max_steps n) self
  end.

Definition run (calls : list call) : Env :=
  foldl (λ self c, run_call c self) SimpleParallelEnv.new calls.

(** The invariant of every object reached by [run]. *)
Record env_ok (self : Env) : Prop := {
  ok_roster : items (possible_agents self) = roster;
  ok_roster_id : (list_id (possible_agents self) < next_id self)%nat;
  ok_agents_id : (list_id (agents self) < next_id self)%nat;
  ok_sublist : items (agents self) `sublist_of` items (possible_agents self)
}.

(** The actions of the two scenarios of the tests. *)
Definition terminate_actions : gmap string string :=
  {["agent1" := "terminate"; "agent2" := "good"; "agent3" := "good"]}.
Definition mixed_actions : gmap string string :=
  {["agent1" := "good"; "agent2" := "bad"; "agent3" := "neutral"]}.

(** Several steps in a row, each with its own actions. *)
Definition step_many (steps : list (gmap string string)) (self : Env) : Env :=
  foldl (λ self actions, after (SimpleParallelEnv.step actions) self) self steps.

(** The loop of [test_multiple_steps], for [n] rounds and any choice of
    action per agent:
    [for i in range(n): env.step({agent: choose(agent) for agent in env.agents})] *)
Fixpoint drive (choose : string → string) (n : nat) (self : Env) : Env :=
  match n with
  | O => self
  | S n =>
      drive choose n
        (after (SimpleParallelEnv.step
                  (dict_comprehension choose (items (agents self)))) self)
  end.

(** The number of [step] calls in a sequence of calls. *)
Definition step_calls (calls : list call) : nat :=
  foldl (λ n c, match c with
                | CallStep _ => S n
                | _ => n
                end) O calls.

(** * Properties *)

(** ** The built-ins *)

Example repr_list_example :
  Py.repr_list (Py.sorted {["agent3"; "agent1"]}) = "['agent1', 'agent3']".
Proof. vm_compute. reflexivity. Qed.

Example str_int_example : Py.str_int (-12) = "-12" ∧ Py.str_int 1 = "1".
Proof. vm_compute. done. Qed.

Section sorted.
Implicit Types (X : gset string) (l : list string) (a : string).

Lemma sorted_StronglySorted X : StronglySorted String.le (Py.sorted X).
Proof. apply StronglySorted_merge_sort; apply _. Qed.

Lemma sorted_Permutation X : Py.sorted X ≡ₚ elements X.
Proof. apply merge_sort_Permutation. Qed.

Lemma elem_of_sorted X a : a ∈ Py.sorted X ↔ a ∈ X.
Proof. by rewrite sorted_Permutation, elem_of_elements. Qed.

Lemma NoDup_sorted X : NoDup (Py.sorted X).
Proof. rewrite sorted_Permutation. apply NoDup_elements. Qed.

(** Whatever the order in which the set is enumerated, sorting gives the
    same list. *)
Lemma sorted_unique X l : l ≡ₚ elements X → merge_sort String.le l = Py.sorted X.
Proof.
  intros Hl. apply (StronglySorted_unique String.le).
  - apply StronglySorted_merge_sort; apply _.
  - apply sorted_StronglySorted.
  - by rewrite merge_sort_Permutation, sorted_Permutation.
Qed.

Lemma sorted_empty : Py.sorted ∅ = [].
Proof. unfold Py.sorted. by rewrite elements_empty. Qed.
End sorted.

Section strings.
Implicit Types (s t u x : string) (l : list string).

Lemma append_cons c s t : String c s +:+ t = String c (s +:+ t).
Proof. reflexivity. Qed.

Lemma append_assoc s t u : (s +:+ t) +:+ u = s +:+ t +:+ u.
Proof.
  induction s as [|c s IH]; [done|].
  by rewrite !append_cons, IH.
Qed.

Lemma contains_refl s : Py.contains s s.
Proof.
  exists "", "". induction s as [|c s IH]; [done|].
  change ("" +:+ String c s +:+ "") with (String c (s +:+ "")).
  f_equal. exact IH.
Qed.

Lemma contains_app_l s t x : Py.contains t x → Py.contains (s +:+ t) x.
Proof.
  intros (p & q & ->). exists (s +:+ p), q. by rewrite append_assoc.
Qed.

Lemma contains_app_r s t x : Py.contains s x → Py.contains (s +:+ t) x.
Proof.
  intros (p & q & ->). exists p, (q +:+ t). by rewrite !append_assoc.
Qed.

Lemma join_cons sep x y l :
  Py.join sep (x :: y :: l) = x +:+ sep +:+ Py.join sep (y :: l).
Proof. reflexivity. Qed.

(** Every part occurs in the joined string. *)
Lemma join_contains sep l x : x ∈ l → Py.contains (Py.join sep l) x.
Proof.
  induction l as [|y [|z l] IH]; intros Hx.
  - by apply elem_of_nil in Hx.
  - apply list_elem_of_singleton in Hx as ->. apply contains_refl.
  - rewrite join_cons. apply elem_of_cons in Hx as [->|Hx].
    + apply contains_app_r, contains_refl.
    + by apply contains_app_l, contains_app_l, IH.
Qed.

(** The printed list shows the [repr] of every item. *)
Lemma repr_list_contains l x : x ∈ l → Py.contains (Py.repr_list l) (Py.repr_str x).
Proof.
  intros Hx. unfold Py.repr_list.
  apply contains_app_l, contains_app_r, join_contains.
  by apply list_elem_of_fmap_2.
Qed.
End strings.


(** ** Validation *)

Lemma validate_accepts self actions :
  dom actions = active_set self →
  ParallelEnv._validate_actions actions self = (self, Return tt).
Proof.
  intros Heq. unfold ParallelEnv._validate_actions, bind, read; simpl.
  fold (active_set self). by rewrite decide_False by (by intros []).
Qed.

Lemma validate_rejects self actions :
  dom actions ≠ active_set self →
  ParallelEnv._validate_actions actions self =
    (self, Raise (ValueError (mismatch_message (active_set self) (dom actions)))).
Proof.
  intros Hne. unfold ParallelEnv._validate_actions, bind, read; simpl.
  fold (active_set self). rewrite decide_True by done.
  unfold raise, mismatch_message, missing_clause, extra_clause.
  by repeat case_decide.
Qed.

(** Two different sets differ by a missing or by an extra element. *)
Lemma mismatch_difference (active given : gset string) :
  given ≠ active → active ∖ given ≠ ∅ ∨ given ∖ active ≠ ∅.
Proof.
  intros Hne.
  destruct (decide (active ∖ given = ∅)) as [Hm|]; [|by left].
  destruct (decide (given ∖ active = ∅)) as [He|]; [|by right].
  destruct Hne. apply set_eq. intros x.
  assert (x ∉ active ∖ given) as Hxm by (rewrite Hm; apply not_elem_of_empty).
  assert (x ∉ given ∖ active) as Hxe by (rewrite He; apply not_elem_of_empty).
  rewrite elem_of_difference in Hxm, Hxe.
  destruct (decide (x ∈ active)), (decide (x ∈ given)); naive_solver.
Qed.

Lemma mismatch_message_missing active given :
  active ∖ given ≠ ∅ → given ∖ active = ∅ →
  mismatch_message active given = missing_clause (active ∖ given).
Proof.
  intros Hm He. unfold mismatch_message.
  by rewrite decide_True, decide_False by (done || by intros []).
Qed.

Lemma mismatch_message_extra active given :
  active ∖ given = ∅ → given ∖ active ≠ ∅ →
  mismatch_message active given = extra_clause (given ∖ active).
Proof.
  intros Hm He. unfold mismatch_message.
  by rewrite decide_False, decide_True by (done || by intros []).
Qed.

Lemma mismatch_message_both active given :
  active ∖ given ≠ ∅ → given ∖ active ≠ ∅ →
  mismatch_message active given =
    missing_clause (active ∖ given) +:+ ". " +:+ extra_clause (given ∖ active).
Proof.
  intros Hm He. unfold mismatch_message. by rewrite !decide_True by done.
Qed.

Lemma elem_of_nonempty (X : gset string) a : a ∈ X → X ≠ ∅.
Proof. intros Ha ->. by apply not_elem_of_empty in Ha. Qed.

Lemma mismatch_message_names_missing active given a :
  a ∈ active ∖ given →
  Py.contains (mismatch_message active given) (Py.repr_str a).
Proof.
  intros Ha. unfold mismatch_message.
  rewrite decide_True by eauto using elem_of_nonempty.
  assert (Py.contains (missing_clause (active ∖ given)) (Py.repr_str a)) as Hc.
  { apply contains_app_l, repr_list_contains. by apply elem_of_sorted. }
  case_decide; simpl.
  - by apply contains_app_r.
  - done.
Qed.

Lemma mismatch_message_names_extra active given a :
  a ∈ given ∖ active →
  Py.contains (mismatch_message active given) (Py.repr_str a).
Proof.
  intros Ha. unfold mismatch_message.
  rewrite (decide_True (P := given ∖ active ≠ ∅)) by eauto using elem_of_nonempty.
  assert (Py.contains (extra_clause (given ∖ active)) (Py.repr_str a)) as Hc.
  { apply contains_app_l, repr_list_contains. by apply elem_of_sorted. }
  case_decide; simpl.
  - by apply contains_app_l, contains_app_l.
  - done.
Qed.

Lemma step_rejects self actions :
  dom actions ≠ active_set self →
  SimpleParallelEnv.step actions self =
    (self, Raise (ValueError (mismatch_message (active_set self) (dom actions)))).
Proof.
  intros Hne. unfold SimpleParallelEnv.step, bind.
  by rewrite validate_rejects.
Qed.

Lemma abstract_step_rejects self actions :
  dom actions ≠ active_set self →
  ParallelEnv.step actions self =
    (self, Raise (ValueError (mismatch_message (active_set self) (dom actions)))).
Proof.
  intros Hne. unfold ParallelEnv.step, bind.
  by rewrite validate_rejects.
Qed.

(** ** The loops of [SimpleParallelEnv.step] *)

Lemma store_all_lookup {V W} (value : string → V → W) d (l : list (string * V)) a :
  NoDup l.*1 →
  store_all value d l !! a =
    match (list_to_map l : gmap string V) !! a with
    | Some v => Some (value a v)
    | None => d !! a
    end.
Proof.
  revert d. induction l as [|[k v] l IH]; intros d Hnd; [done|].
  apply NoDup_cons in Hnd as [Hk Hnd].
  unfold store_all in *. simpl. rewrite IH by done.
  destruct (decide (k = a)) as [->|Hne].
  - rewrite lookup_insert_eq.
    rewrite (not_elem_of_list_to_map_1 l a) by done.
    by rewrite lookup_insert_eq.
  - rewrite (lookup_insert_ne (list_to_map l)) by done.
    destruct (list_to_map l !! a); [done|].
    by rewrite lookup_insert_ne.
Qed.

(** Over the items of a dictionary the loop stores [value k v] under every
    key [k] of it. *)
Lemma store_all_items {V W} (value : string → V → W) (m : gmap string V) a :
  store_all value ∅ (map_to_list m) !! a = value a <$> m !! a.
Proof.
  rewrite store_all_lookup by apply NoDup_fst_map_to_list.
  rewrite list_to_map_to_list. by destruct (m !! a).
Qed.

Lemma store_all_dom {V W} (value : string → V → W) (m : gmap string V) :
  dom (store_all value ∅ (map_to_list m)) = dom m.
Proof.
  apply set_eq. intros a. rewrite !elem_of_dom, store_all_items.
  by rewrite fmap_is_Some.
Qed.

(** The loop over [actions.items()] fills its four dictionaries
    independently. *)
Lemma process_action_fold count l observations rewards terminations infos :
  foldl (SimpleParallelEnv.process_action count)
        (observations, rewards, terminations, infos) l =
  (store_all (observation_of count) observations l,
   store_all (λ _, reward_of) rewards l,
   store_all (λ _, terminates) terminations l,
   store_all (λ _ _, info_of count) infos l).
Proof.
  revert observations rewards terminations infos.
  induction l as [|[agent action] l IH]; intros; [done|].
  unfold store_all. simpl. unfold store_all in IH. rewrite <- IH.
  f_equal. unfold reward_of, terminates.
  by destruct (String.eqb action "good"), (String.eqb action "bad"),
    (String.eqb action "terminate").
Qed.

Lemma mark_all_lookup flag d (l : list string) a :
  SimpleParallelEnv.mark_all flag d l !! a =
    if decide (a ∈ l) then Some flag else d !! a.
Proof.
  revert d. induction l as [|k l IH]; intros d.
  - by rewrite decide_False by apply not_elem_of_nil.
  - unfold SimpleParallelEnv.mark_all in *. simpl. rewrite IH.
    destruct (decide (a ∈ l)) as [Hin|Hin].
    + by rewrite decide_True by (by right).
    + destruct (decide (k = a)) as [->|Hne].
      * rewrite lookup_insert_eq. by rewrite decide_True by left.
      * rewrite lookup_insert_ne by done.
        rewrite decide_False; [done|]. by intros [->|?]%elem_of_cons.
Qed.

Lemma mark_all_dom flag (l : list string) :
  dom (SimpleParallelEnv.mark_all flag ∅ l) = list_to_set l.
Proof.
  apply set_eq. intros a. rewrite elem_of_dom, mark_all_lookup, elem_of_list_to_set.
  case_decide; [by split; eauto|].
  rewrite lookup_empty. split; [by intros []|done].
Qed.

(** ** A successful [step] *)

(** The signal mappings that [step] computes from the object and the
    actions. *)
Lemma step_accepts self actions :
  dom actions = active_set self →
  let observations := store_all (observation_of (step_count self)) ∅ (map_to_list actions) in
  let rewards := store_all (λ _, reward_of) ∅ (map_to_list actions) in
  let terminations := store_all (λ _, terminates) ∅ (map_to_list actions) in
  let truncations :=
    SimpleParallelEnv.mark_all (bool_decide (max_steps self ≤ step_count self + 1))
      ∅ (items (agents self)) in
  let infos := store_all (λ _ _, info_of (step_count self)) ∅ (map_to_list actions) in
  SimpleParallelEnv.step actions self =
    (stepped self rewards terminations truncations infos,
     Return (observations, rewards, terminations, truncations, infos)).
Proof.
  intros Heq. unfold SimpleParallelEnv.step, bind at 1.
  rewrite validate_accepts by done.
  unfold bind at 1, read at 1. rewrite process_action_fold.
  simpl. unfold bind, read, assign, ret; simpl.
  case_bool_decide; by case_decide.
Qed.

Lemma step_returns_iff self actions :
  (∃ self' r, SimpleParallelEnv.step actions self = (self', Return r)) ↔
  dom actions = active_set self.
Proof.
  split.
  - intros (self' & r & Hstep).
    destruct (decide (dom actions = active_set self)) as [|Hne]; [done|].
    rewrite step_rejects in Hstep by done. discriminate.
  - intros Heq. eexists _, _. by apply step_accepts.
Qed.

Lemma survives_true terminations truncations agent :
  ParallelEnv.survives terminations truncations agent = true ↔
  ¬ (terminations !! agent = Some true ∨ truncations !! agent = Some true).
Proof.
  unfold ParallelEnv.survives, Py.get.
  destruct (terminations !! agent) as [[]|], (truncations !! agent) as [[]|];
    simpl; intuition discriminate.
Qed.

Lemma remove_dead_agents_eq self :
  ParallelEnv._remove_dead_agents self =
    (set_agents
       {| list_id := next_id self;
          items := filter (λ agent, ParallelEnv.survives (terminations self)
                                      (truncations self) agent = true)
                          (items (agents self)) |}
       (set_next_id (S (next_id self)) self),
     Return tt).
Proof. reflexivity. Qed.

(** ** The claims about validation *)

(** C1: whenever the keys of the action mapping differ from the active
    agents, [step] (the abstract body and the concrete one, both through
    [_validate_actions]) raises [ValueError] and leaves the object as it was.
    The message is the missing clause alone, the extra clause alone, or the
    two joined by a full stop and a space, according to which differences are
    not empty; each clause prints the sorted list, without repetition, of
    exactly the agents concerned, and the [repr] of every one of them occurs
    in the message. *)
Theorem step_rejects_mismatched_actions self actions :
  let active := active_set self in
  let missing := active ∖ dom actions in
  let extra := dom actions ∖ active in
  let missing_text :=
    "Missing actions for agents: " +:+ Py.repr_list (Py.sorted missing) in
  let extra_text :=
    "Actions provided for non-active agents: " +:+ Py.repr_list (Py.sorted extra) in
  dom actions ≠ active →
  ∃ msg,
    SimpleParallelEnv.step actions self = (self, Raise (ValueError msg)) ∧
    ParallelEnv.step actions self = (self, Raise (ValueError msg)) ∧
    ParallelEnv._validate_actions actions self = (self, Raise (ValueError msg)) ∧
    (missing ≠ ∅ ∨ extra ≠ ∅) ∧
    (missing ≠ ∅ → extra = ∅ → msg = missing_text) ∧
    (missing = ∅ → extra ≠ ∅ → msg = extra_text) ∧
    (missing ≠ ∅ → extra ≠ ∅ → msg = missing_text +:+ ". " +:+ extra_text) ∧
    (StronglySorted String.le (Py.sorted missing) ∧ NoDup (Py.sorted missing) ∧
     ∀ a, a ∈ Py.sorted missing ↔ a ∈ items (agents self) ∧ actions !! a = None) ∧
    (StronglySorted String.le (Py.sorted extra) ∧ NoDup (Py.sorted extra) ∧
     ∀ a, a ∈ Py.sorted extra ↔ is_Some (actions !! a) ∧ a ∉ items (agents self)) ∧
    (∀ a, a ∈ missing → Py.contains msg (Py.repr_str a)) ∧
    (∀ a, a ∈ extra → Py.contains msg (Py.repr_str a)).
Proof.
  intros active missing extra missing_text extra_text Hne.
  exists (mismatch_message active (dom actions)).
  split; [by apply step_rejects|].
  split; [by apply abstract_step_rejects|].
  split; [by apply validate_rejects|].
  split; [by apply mismatch_difference|].
  split; [by apply mismatch_message_missing|].
  split; [by apply mismatch_message_extra|].
  split; [by apply mismatch_message_both|].
  split; [|split; [|split]].
  - split; [apply sorted_StronglySorted|]. split; [apply NoDup_sorted|].
    intros a. rewrite elem_of_sorted. unfold missing, active, active_set.
    by rewrite elem_of_difference, elem_of_list_to_set, not_elem_of_dom.
  - split; [apply sorted_StronglySorted|]. split; [apply NoDup_sorted|].
    intros a. rewrite elem_of_sorted. unfold extra, active, active_set.
    by rewrite elem_of_difference, elem_of_list_to_set, elem_of_dom.
  - apply mismatch_message_names_missing.
  - apply mismatch_message_names_extra.
Qed.

(** C5: a call of [step] whose action keys differ from the active agents
    raises out of [_validate_actions], the first statement of the body, and
    the object after the call is the object before it: the same active-agents
    list, step counter and signal mappings.  No call of [step] that raises
    changes the object. *)
Theorem step_mismatch_changes_nothing self actions :
  dom actions ≠ active_set self →
  ∃ msg,
    ParallelEnv._validate_actions actions self = (self, Raise (ValueError msg)) ∧
    result (SimpleParallelEnv.step actions) self = Raise (ValueError msg) ∧
    let self' := after (SimpleParallelEnv.step actions) self in
    self' = self ∧
    agents self' = agents self ∧
    step_count self' = step_count self ∧
    terminations self' = terminations self ∧
    truncations self' = truncations self ∧
    rewards self' = rewards self ∧
    infos self' = infos self ∧
    (∀ other self'' e,
       SimpleParallelEnv.step other self = (self'', Raise e) → self'' = self).
Proof.
  intros Hne. exists (mismatch_message (active_set self) (dom actions)).
  split; [by apply validate_rejects|].
  unfold result, after. rewrite step_rejects by done. simpl.
  repeat split.
  intros other self'' e Hstep.
  destruct (decide (dom other = active_set self)) as [Heq|Hne'].
  - pose proof (step_accepts self other Heq) as Hok. cbv zeta in Hok.
    rewrite Hok in Hstep. discriminate.
  - rewrite step_rejects in Hstep by done. by inversion Hstep.
Qed.

(** ** The claims about a successful step *)

(** C4: when [step] returns, the observations, rewards, terminations,
    truncations and infos it returns all have the agents that were active
    when the call started as their keys. *)
Theorem step_result_keys self actions self' observations rewards terminations
    truncations infos :
  SimpleParallelEnv.step actions self =
    (self', Return (observations, rewards, terminations, truncations, infos)) →
  dom observations = active_set self ∧
  dom rewards = active_set self ∧
  dom terminations = active_set self ∧
  dom truncations = active_set self ∧
  dom infos = active_set self.
Proof.
  intros Hstep.
  assert (dom actions = active_set self) as Heq.
  { apply step_returns_iff. eauto. }
  pose proof (step_accepts self actions Heq) as Hok. cbv zeta in Hok.
  rewrite Hok in Hstep. inversion Hstep; subst.
  rewrite !store_all_dom, mark_all_dom. by rewrite Heq.
Qed.

(** C2: a call of [step] that passes validation returns, and when it returns
    the active-agents list holds, in their previous order, exactly the
    previously active agents that the returned terminations and truncations
    do not flag: an agent flagged by either is gone, an agent with both flags
    false is still there.  The next call is validated against the pruned
    list. *)
Theorem step_prunes_flagged_agents self actions :
  dom actions = active_set self →
  ∃ self' observations rewards terminations truncations infos,
    SimpleParallelEnv.step actions self =
      (self', Return (observations, rewards, terminations, truncations, infos)) ∧
    (∀ a, terminations !! a = Some true ∨ truncations !! a = Some true →
          a ∉ items (agents self')) ∧
    (∀ a, terminations !! a = Some false → truncations !! a = Some false →
          a ∈ items (agents self')) ∧
    items (agents self') =
      filter (λ a, ¬ (terminations !! a = Some true ∨ truncations !! a = Some true))
             (items (agents self)) ∧
    (∀ next_actions,
       (∃ self'' r, SimpleParallelEnv.step next_actions self' = (self'', Return r)) ↔
       dom next_actions = list_to_set (items (agents self'))).
Proof.
  intros Heq.
  pose proof (step_accepts self actions Heq) as Hok. cbv zeta in Hok.
  eexists _, _, _, _, _, _. split; [exact Hok|].
  set (terminations := store_all (λ _, terminates) ∅ (map_to_list actions)) in *.
  set (truncations := SimpleParallelEnv.mark_all _ ∅ (items (agents self))) in *.
  assert (items (agents (stepped self
            (store_all (λ _, reward_of) ∅ (map_to_list actions))
            terminations truncations
            (store_all (λ _ _, info_of (step_count self)) ∅ (map_to_list actions)))) =
          filter (λ a, ¬ (terminations !! a = Some true ∨ truncations !! a = Some true))
                 (items (agents self))) as Hitems.
  { simpl. apply list_filter_iff. intros a. apply survives_true. }
  split; [|split; [|split]].
  - intros a Hflag. rewrite Hitems, list_elem_of_filter. tauto.
  - intros a Hterm Htrunc. rewrite Hitems, list_elem_of_filter. split.
    + rewrite Hterm, Htrunc. by intros [|].
    + assert (a ∈ dom terminations) as Hdom by (apply elem_of_dom; eauto).
      unfold terminations in Hdom. rewrite store_all_dom, Heq in Hdom.
      by apply elem_of_list_to_set in Hdom.
  - exact Hitems.
  - intros next_actions. apply step_returns_iff.
Qed.

(** C9: the default [state()] takes no argument, raises
    [NotImplementedError] and leaves the object as it was. *)
Theorem default_state_not_implemented (Any : Type) self :
  @ParallelEnv.state Any self = (self, Raise NotImplementedError).
Proof. reflexivity. Qed.

(** ** Pruning on its own *)

Lemma get_insert_absent (d : gmap string bool) a x :
  d !! a = None → Py.get (<[a := false]> d) x false = Py.get d x false.
Proof.
  intros Ha. unfold Py.get. destruct (decide (a = x)) as [->|Hne].
  - by rewrite lookup_insert_eq, Ha.
  - by rewrite lookup_insert_ne.
Qed.

(** C10: [_remove_dead_agents] returns for every content of the two flag
    mappings.  An active agent stays exactly when neither defaulting lookup
    gives true, so a flag whose key is absent counts as false: the agent
    absent from one mapping stays unless the other mapping flags it, the
    agent absent from both stays, and adding the absent key with the value
    false changes nothing. *)
Theorem remove_dead_agents_defaults self :
  ∃ self',
    ParallelEnv._remove_dead_agents self = (self', Return tt) ∧
    (∀ a, a ∈ items (agents self') ↔
          a ∈ items (agents self) ∧
          Py.get (terminations self) a false = false ∧
          Py.get (truncations self) a false = false) ∧
    (∀ a, terminations self !! a = None →
          Py.get (terminations self) a false = false ∧
          (a ∈ items (agents self') ↔
           a ∈ items (agents self) ∧ truncations self !! a ≠ Some true)) ∧
    (∀ a, truncations self !! a = None →
          Py.get (truncations self) a false = false ∧
          (a ∈ items (agents self') ↔
           a ∈ items (agents self) ∧ terminations self !! a ≠ Some true)) ∧
    (∀ a, terminations self !! a = None → truncations self !! a = None →
          a ∈ items (agents self) → a ∈ items (agents self')) ∧
    (∀ a, terminations self !! a = None →
          items (agents (after ParallelEnv._remove_dead_agents
                           (set_terminations (<[a := false]> (terminations self)) self))) =
          items (agents self')) ∧
    (∀ a, truncations self !! a = None →
          items (agents (after ParallelEnv._remove_dead_agents
                           (set_truncations (<[a := false]> (truncations self)) self))) =
          items (agents self')).
Proof.
  eexists. split; [apply remove_dead_agents_eq|]. simpl.
  assert (∀ a, a ∈ filter (λ agent, ParallelEnv.survives (terminations self)
                                       (truncations self) agent = true)
                           (items (agents self)) ↔
               a ∈ items (agents self) ∧
               Py.get (terminations self) a false = false ∧
               Py.get (truncations self) a false = false) as Hmem.
  { intros a. rewrite list_elem_of_filter. unfold ParallelEnv.survives.
    destruct (Py.get (terminations self) a false),
      (Py.get (truncations self) a false); simpl; intuition discriminate. }
  split; [exact Hmem|].
  split; [|split; [|split; [|split]]].
  - intros a Ha. split; [unfold Py.get; by rewrite Ha|].
    rewrite Hmem. unfold Py.get. rewrite Ha.
    destruct (truncations self !! a) as [[]|]; intuition congruence.
  - intros a Ha. split; [unfold Py.get; by rewrite Ha|].
    rewrite Hmem. unfold Py.get. rewrite Ha.
    destruct (terminations self !! a) as [[]|]; intuition congruence.
  - intros a Hterm Htrunc Hin. apply Hmem. unfold Py.get.
    by rewrite Hterm, Htrunc.
  - intros a Ha. apply list_filter_iff. intros x.
    unfold ParallelEnv.survives. by rewrite get_insert_absent.
  - intros a Ha. apply list_filter_iff. intros x.
    unfold ParallelEnv.survives. by rewrite get_insert_absent.
Qed.

(** ** The life of an environment *)

Lemma filter_ext_elem_of (P Q : string → Prop)
    `{!∀ x, Decision (P x), !∀ x, Decision (Q x)} (l : list string) :
  (∀ x, x ∈ l → P x ↔ Q x) → filter P l = filter Q l.
Proof.
  induction l as [|x l IH]; intros Hiff; [done|].
  rewrite !filter_cons.
  rewrite IH by (intros y Hy; apply Hiff; by right).
  apply decide_ext, Hiff. by left.
Qed.

(** A sublist of a list without repetition is that list filtered by
    membership. *)
Lemma sublist_filter_elem_of (l1 l2 : list string) :
  l1 `sublist_of` l2 → NoDup l2 → l1 = filter (λ a, a ∈ l1) l2.
Proof.
  induction 1 as [|x l1 l2 Hsub IH|x l1 l2 Hsub IH]; intros Hnd.
  - done.
  - apply NoDup_cons in Hnd as [Hx Hnd].
    rewrite filter_cons_True by left. f_equal.
    rewrite (IH Hnd) at 1. apply filter_ext_elem_of.
    intros a Ha. split; [by right|].
    intros [->|?]%elem_of_cons; done.
  - apply NoDup_cons in Hnd as [Hx Hnd].
    rewrite filter_cons_False; [by apply IH|].
    intros Hin. apply Hx. by eapply elem_of_sublist.
Qed.

Lemma NoDup_roster : NoDup roster.
Proof. apply (bool_decide_unpack _). vm_compute; reflexivity. Qed.

(** [super().reset(seed)] raises, so [reset] raises before its first
    assignment. *)
Lemma reset_raises seed self :
  SimpleParallelEnv.reset seed self = (self, Raise NotImplementedError).
Proof. reflexivity. Qed.

Lemma new_ok : env_ok SimpleParallelEnv.new.
Proof. split; simpl; (done || lia). Qed.

Lemma run_call_ok c self : env_ok self → env_ok (run_call c self).
Proof.
  intros [Hroster Hrid Haid Hsub]. destruct c as [seed|actions| | | |n]; simpl.
  - unfold after. rewrite reset_raises. by split.
  - unfold after.
    destruct (decide (dom actions = active_set self)) as [Heq|Hne].
    + pose proof (step_accepts self actions Heq) as Hok. cbv zeta in Hok.
      rewrite Hok. split; simpl; [done|lia|lia|].
      etrans; [apply sublist_filter|done].
    + rewrite step_rejects by done. by split.
  - split; simpl; (done || lia).
  - by split.
  - by split.
  - by split.
Qed.

Lemma run_from_ok calls self :
  env_ok self → env_ok (foldl (λ self c, run_call c self) self calls).
Proof.
  revert self. induction calls as [|c calls IH]; intros self Hok; [done|].
  simpl. by apply IH, run_call_ok.
Qed.

Lemma run_ok calls : env_ok (run calls).
Proof. apply run_from_ok, new_ok. Qed.

Lemma step_sublist actions self :
  items (agents (after (SimpleParallelEnv.step actions) self))
    `sublist_of` items (agents self).
Proof.
  unfold after. destruct (decide (dom actions = active_set self)) as [Heq|Hne].
  - pose proof (step_accepts self actions Heq) as Hok. cbv zeta in Hok.
    rewrite Hok. simpl. apply sublist_filter.
  - by rewrite step_rejects.
Qed.

Lemma steps_sublist (steps : list (gmap string string)) self :
  items (agents (foldl (λ self c, run_call c self) self (CallStep <$> steps)))
    `sublist_of` items (agents self).
Proof.
  revert self. induction steps as [|actions steps IH]; intros self; [done|].
  simpl. etrans; [apply IH|]. apply step_sublist.
Qed.

(** C3 (the code departs from the claim): [reset] calls [super().reset(seed)]
    first, which is the [reset] of [ParallelEnv] and raises
    [NotImplementedError]; the assignment of a copy of the roster to
    [self.agents] is never reached.  On the environment in which agent1 has
    terminated, [reset] raises, the object is unchanged and the active agents
    are still agent2 and agent3, not the roster; on every object [reset]
    raises and changes nothing. *)
Theorem reset_raises_before_restoring_roster seed :
  let env := after (SimpleParallelEnv.step terminate_actions) SimpleParallelEnv.new in
  SimpleParallelEnv.reset seed env = (env, Raise NotImplementedError) ∧
  items (possible_agents env) = ["agent1"; "agent2"; "agent3"] ∧
  items (agents (after (SimpleParallelEnv.reset seed) env)) = ["agent2"; "agent3"] ∧
  (∀ self, SimpleParallelEnv.reset seed self = (self, Raise NotImplementedError)).
Proof.
  intros env. split; [apply reset_raises|].
  split; [vm_compute; reflexivity|]. split; [|apply reset_raises].
  unfold after. rewrite reset_raises. vm_compute; reflexivity.
Qed.

(** C8: on every object that a sequence of calls can reach, the active
    agents are a subsequence of the roster, namely the roster filtered by
    membership in the active agents; [_remove_dead_agents] and [step] leave a
    subsequence of the agents that were active, and so does any number of
    steps: nothing is reordered and nothing comes back. *)
Theorem active_agents_follow_roster_order calls :
  let self := run calls in
  items (agents self) `sublist_of` items (possible_agents self) ∧
  items (agents self) =
    filter (λ a, a ∈ items (agents self)) (items (possible_agents self)) ∧
  items (possible_agents self) = ["agent1"; "agent2"; "agent3"] ∧
  (∀ env, items (agents (after ParallelEnv._remove_dead_agents env))
            `sublist_of` items (agents env)) ∧
  (∀ actions, items (agents (after (SimpleParallelEnv.step actions) self))
                `sublist_of` items (agents self)) ∧
  (∀ steps : list (gmap string string),
     items (agents (run (calls ++ (CallStep <$> steps))))
       `sublist_of` items (agents self)).
Proof.
  intros self.
  destruct (run_ok calls) as [Hroster Hrid Haid Hsub]. fold self in Hroster, Hsub.
  split; [done|]. split.
  { apply sublist_filter_elem_of; [done|].
    rewrite Hroster. apply NoDup_roster. }
  split; [done|]. split; [|split].
  - intros env. simpl. apply sublist_filter.
  - intros actions. apply step_sublist.
  - intros steps. unfold run. rewrite foldl_app. apply steps_sublist.
Qed.

(** A successful step from an object whose counter, limit and active agents
    are known. *)
Lemma step_from self actions count limit active :
  step_count self = count → max_steps self = limit →
  items (agents self) = active → dom actions = list_to_set active →
  ∃ self',
    SimpleParallelEnv.step actions self =
      (self', Return (step_outputs count limit active actions)) ∧
    items (agents self') = survivors active (step_outputs count limit active actions) ∧
    step_count self' = count + 1 ∧
    max_steps self' = limit.
Proof.
  intros <- <- <- Hdom.
  pose proof (step_accepts self actions Hdom) as Hok. cbv zeta in Hok.
  eexists. split; [exact Hok|]. done.
Qed.

(** C6: in a new [SimpleParallelEnv], whose active agents are agent1, agent2
    and agent3, the step in which agent1 terminates and the two others act
    returns terminations true for agent1 and false for agent2 and agent3, and
    leaves agent2 and agent3, in this order, as the active agents.  The next
    step returns when its actions are keyed by agent2 and agent3 exactly, and
    otherwise raises the mismatch error. *)
Theorem termination_scenario :
  ∃ env' observations rewards terminations truncations infos,
    SimpleParallelEnv.step
      {["agent1" := "terminate"; "agent2" := "good"; "agent3" := "good"]}
      SimpleParallelEnv.new =
      (env', Return (observations, rewards, terminations, truncations, infos)) ∧
    terminations !! "agent1" = Some true ∧
    terminations !! "agent2" = Some false ∧
    terminations !! "agent3" = Some false ∧
    items (agents env') = ["agent2"; "agent3"] ∧
    ∀ next_actions : gmap string string,
      ((∃ env'' r, SimpleParallelEnv.step next_actions env' = (env'', Return r)) ↔
       dom next_actions = {["agent2"; "agent3"]}) ∧
      (dom next_actions ≠ {["agent2"; "agent3"]} →
       ∃ msg, SimpleParallelEnv.step next_actions env' = (env', Raise (ValueError msg))).
Proof.
  destruct (step_from SimpleParallelEnv.new terminate_actions 0 10 roster)
    as (env' & Hstep & Hactive & _ & _); [done|done|done|vm_compute; reflexivity|].
  exists env'. eexists _, _, _, _, _. split; [exact Hstep|].
  split; [vm_compute; reflexivity|]. split; [vm_compute; reflexivity|].
  split; [vm_compute; reflexivity|].
  assert (items (agents env') = ["agent2"; "agent3"]) as Hleft.
  { rewrite Hactive. vm_compute; reflexivity. }
  split; [done|].
  assert (active_set env' = {["agent2"; "agent3"]}) as Hset.
  { unfold active_set. rewrite Hleft. vm_compute; reflexivity. }
  intros next_actions. rewrite <- Hset. split.
  - apply step_returns_iff.
  - intros Hne. eexists. by apply step_rejects.
Qed.

(** C7 (the code departs from the claim in its first clause): on a new
    [SimpleParallelEnv], [reset] returns no observations and no infos: it
    raises [NotImplementedError] out of [super().reset(seed)] and leaves the
    object as it was.  The rest of the scenario holds on that object: with
    the limit then set to two steps, the first step with the actions good,
    bad and neutral returns the rewards 1.0, -1.0 and 0.0 and the truncation
    false for every agent, and leaves the three agents active; the second
    step with the same actions returns the truncation true for every
    agent. *)
Theorem truncation_scenario seed :
  SimpleParallelEnv.reset seed SimpleParallelEnv.new =
    (SimpleParallelEnv.new, Raise NotImplementedError) ∧
  let env0 := after (SimpleParallelEnv.reset seed) SimpleParallelEnv.new in
  let env1 := after (assign_max_steps 2) env0 in
  let actions : gmap string string :=
    {["agent1" := "good"; "agent2" := "bad"; "agent3" := "neutral"]} in
  ∃ env2 observations rewards terminations truncations infos,
    SimpleParallelEnv.step actions env1 =
      (env2, Return (observations, rewards, terminations, truncations, infos)) ∧
    rewards !! "agent1" = Some 1%float ∧
    rewards !! "agent2" = Some (-1)%float ∧
    rewards !! "agent3" = Some 0%float ∧
    truncations = {["agent1" := false; "agent2" := false; "agent3" := false]} ∧
    items (agents env2) = ["agent1"; "agent2"; "agent3"] ∧
    ∃ env3 observations' rewards' terminations' truncations' infos',
      SimpleParallelEnv.step actions env2 =
        (env3, Return (observations', rewards', terminations', truncations', infos')) ∧
      truncations' = {["agent1" := true; "agent2" := true; "agent3" := true]}.
Proof.
  split; [apply reset_raises|].
  intros env0 env1 actions.
  destruct (step_from env1 actions 0 2 roster) as (env2 & Hstep & Hactive & Hcount2 & Hmax2);
    [done|done|done|vm_compute; reflexivity|].
  exists env2. eexists _, _, _, _, _. split; [exact Hstep|].
  split; [vm_compute; reflexivity|]. split; [vm_compute; reflexivity|].
  split; [vm_compute; reflexivity|]. split; [vm_compute; reflexivity|].
  assert (items (agents env2) = roster) as Hitems2.
  { rewrite Hactive. vm_compute; reflexivity. }
  split; [done|].
  destruct (step_from env2 actions 1 2 roster) as (env3 & Hstep3 & _);
    [done|done|done|vm_compute; reflexivity|].
  exists env3. eexists _, _, _, _, _. split; [exact Hstep3|]. vm_compute; reflexivity.
Qed.

(** ** The theorems at concrete inputs *)

Lemma step_return_inj (self self' : Env) (out out' : StepResult) :
  (self, Return out) = (self', Return out') → self = self' ∧ out = out'.
Proof. intros Heq. by injection Heq. Qed.

Lemma step_result_inj (o o' : gmap string string) (r r' : gmap string float)
    (t t' tr tr' : gmap string bool) (i i' : gmap string (gmap string info_value)) :
  (o, r, t, tr, i) = (o', r', t', tr', i') →
  o = o' ∧ r = r' ∧ t = t' ∧ tr = tr' ∧ i = i'.
Proof. intros Heq. by injection Heq. Qed.

(** Two sets are shown different by deciding their equality. *)
Lemma gset_neq (X Y : gset string) : bool_decide (X = Y) = false → X ≠ Y.
Proof. apply bool_decide_eq_false. Qed.

(** C1 at a new environment and actions for agent1 and an unknown agent4:
    both clauses appear. *)
Lemma step_rejects_mismatched_actions_witness :
  SimpleParallelEnv.step {["agent1" := "good"; "agent4" := "extra"]}
    SimpleParallelEnv.new =
  (SimpleParallelEnv.new,
   Raise (ValueError "Missing actions for agents: ['agent2', 'agent3']. Actions provided for non-active agents: ['agent4']")).
Proof.
  pose proof (step_rejects_mismatched_actions SimpleParallelEnv.new
                {["agent1" := "good"; "agent4" := "extra"]}) as H.
  cbv zeta in H.
  destruct H as (msg & Hstep & _ & _ & _ & _ & _ & Hboth & _).
  - apply gset_neq. vm_compute; reflexivity.
  - rewrite Hstep, Hboth.
    + vm_compute; reflexivity.
    + apply gset_neq. vm_compute; reflexivity.
    + apply gset_neq. vm_compute; reflexivity.
Defined.

(** C5 at a new environment and actions that leave out agent3. *)
Lemma step_mismatch_changes_nothing_witness :
  dom ({["agent1" := "good"; "agent2" := "bad"]} : gmap string string) ≠
    active_set SimpleParallelEnv.new ∧
  after (SimpleParallelEnv.step {["agent1" := "good"; "agent2" := "bad"]})
    SimpleParallelEnv.new = SimpleParallelEnv.new ∧
  ∃ msg,
    result (SimpleParallelEnv.step {["agent1" := "good"; "agent2" := "bad"]})
      SimpleParallelEnv.new = Raise (ValueError msg).
Proof.
  assert (dom ({["agent1" := "good"; "agent2" := "bad"]} : gmap string string) ≠
          active_set SimpleParallelEnv.new) as Hne.
  { apply gset_neq. vm_compute; reflexivity. }
  split; [exact Hne|].
  destruct (step_mismatch_changes_nothing SimpleParallelEnv.new
              {["agent1" := "good"; "agent2" := "bad"]} Hne)
    as (msg & _ & Hresult & Hsame & _).
  split; [exact Hsame|]. by exists msg.
Defined.

(** C4 at the step of a new environment in which agent1 terminates: the keys
    are the three agents of the start, not the two that remain. *)
Lemma step_result_keys_witness :
  ∃ env' observations rewards terminations truncations infos,
    SimpleParallelEnv.step terminate_actions SimpleParallelEnv.new =
      (env', Return (observations, rewards, terminations, truncations, infos)) ∧
    items (agents env') = ["agent2"; "agent3"] ∧
    dom observations = {["agent1"; "agent2"; "agent3"]} ∧
    dom rewards = {["agent1"; "agent2"; "agent3"]} ∧
    dom terminations = {["agent1"; "agent2"; "agent3"]} ∧
    dom truncations = {["agent1"; "agent2"; "agent3"]} ∧
    dom infos = {["agent1"; "agent2"; "agent3"]}.
Proof.
  destruct (step_from SimpleParallelEnv.new terminate_actions 0 10 roster)
    as (env' & Hstep & Hactive & _); [done|done|done|vm_compute; reflexivity|].
  unfold step_outputs in Hstep.
  exists env'. eexists _, _, _, _, _. split; [exact Hstep|].
  split; [rewrite Hactive; vm_compute; reflexivity|].
  destruct (step_result_keys _ _ _ _ _ _ _ _ Hstep) as (Ho & Hr & Ht & Htr & Hi).
  assert (active_set SimpleParallelEnv.new = {["agent1"; "agent2"; "agent3"]})
    as Hset by (vm_compute; reflexivity).
  rewrite Hset in Ho, Hr, Ht, Htr, Hi.
  exact (conj Ho (conj Hr (conj Ht (conj Htr Hi)))).
Defined.

(** C2 at the same step. *)
Lemma step_prunes_flagged_agents_witness :
  dom terminate_actions = active_set SimpleParallelEnv.new ∧
  items (agents (after (SimpleParallelEnv.step terminate_actions)
                   SimpleParallelEnv.new)) = ["agent2"; "agent3"].
Proof.
  assert (dom terminate_actions = active_set SimpleParallelEnv.new) as Hdom
    by (vm_compute; reflexivity).
  split; [exact Hdom|].
  destruct (step_prunes_flagged_agents SimpleParallelEnv.new terminate_actions Hdom)
    as (env' & o & r & t & tr & i & Hstep & _ & _ & Hfilter & _).
  unfold after. rewrite Hstep. simpl. rewrite Hfilter.
  pose proof (step_accepts SimpleParallelEnv.new terminate_actions Hdom) as Hok.
  cbv zeta in Hok. rewrite Hok in Hstep.
  apply step_return_inj in Hstep as [_ Hout].
  apply step_result_inj in Hout as (_ & _ & <- & <- & _).
  vm_compute; reflexivity.
Defined.

(** A call sequence of the tests: the [reset] raises and changes nothing, the
    step in which agent2 terminates removes it. *)
Example run_reset_then_step :
  items (agents (run [CallReset None;
                      CallStep {["agent1" := "good"; "agent2" := "terminate";
                                 "agent3" := "good"]}])) = ["agent1"; "agent3"].
Proof. vm_compute; reflexivity. Qed.

(** Pruning with an absent key: an agent without termination entry is removed
    when its truncation flag is true, and kept otherwise. *)
Example remove_dead_agents_absent_key :
  let env := set_terminations ∅
               (set_truncations {["agent1" := true; "agent2" := false]}
                  SimpleParallelEnv.new) in
  ParallelEnv._remove_dead_agents env =
    (set_agents {| list_id := next_id env; items := ["agent2"; "agent3"] |}
       (set_next_id (S (next_id env)) env),
     Return tt).
Proof. vm_compute; reflexivity. Qed.


(** * Further properties of the two classes *)

(** ** Dictionaries built by loops *)

Lemma dict_fold_lookup {V} (value : string → V) (d : gmap string V)
    (l : list string) a :
  foldl (λ d k, <[k := value k]> d) d l !! a =
    if decide (a ∈ l) then Some (value a) else d !! a.
Proof.
  revert d. induction l as [|k l IH]; intros d.
  - by rewrite decide_False by apply not_elem_of_nil.
  - simpl. rewrite IH. destruct (decide (a ∈ l)) as [Hin|Hin].
    + by rewrite decide_True by (by right).
    + destruct (decide (k = a)) as [->|Hne].
      * rewrite lookup_insert_eq. by rewrite decide_True by left.
      * rewrite lookup_insert_ne by done.
        rewrite decide_False; [done|]. by intros [->|?]%elem_of_cons.
Qed.

Lemma dict_comprehension_lookup {V} (value : string → V) (l : list string) a :
  dict_comprehension value l !! a = if decide (a ∈ l) then Some (value a) else None.
Proof. unfold dict_comprehension. by rewrite dict_fold_lookup, lookup_empty. Qed.

Lemma dict_comprehension_dom {V} (value : string → V) (l : list string) :
  dom (dict_comprehension value l) = list_to_set l.
Proof.
  apply set_eq. intros a.
  rewrite elem_of_dom, dict_comprehension_lookup, elem_of_list_to_set.
  case_decide; [by split; eauto|]. split; [by intros []|done].
Qed.

Lemma filter_all (P : string → Prop) `{!∀ x, Decision (P x)} (l : list string) :
  (∀ x, x ∈ l → P x) → filter P l = l.
Proof.
  induction l as [|x l IH]; intros Hall; [done|].
  rewrite filter_cons_True by (apply Hall; left).
  f_equal. apply IH. intros y Hy. apply Hall. by right.
Qed.

Lemma filter_none (P : string → Prop) `{!∀ x, Decision (P x)} (l : list string) :
  (∀ x, x ∈ l → ¬ P x) → filter P l = [].
Proof.
  induction l as [|x l IH]; intros Hnone; [done|].
  rewrite filter_cons_False by (apply Hnone; left).
  apply IH. intros y Hy. apply Hnone. by right.
Qed.

(** ** What a successful step computes, agent by agent *)

Lemma step_details self actions :
  dom actions = active_set self →
  ∃ observations rewards terminations truncations infos,
    SimpleParallelEnv.step actions self =
      (stepped self rewards terminations truncations infos,
       Return (observations, rewards, terminations, truncations, infos)) ∧
    (∀ a, observations !! a = observation_of (step_count self) a <$> actions !! a) ∧
    (∀ a, rewards !! a = reward_of <$> actions !! a) ∧
    (∀ a, terminations !! a = terminates <$> actions !! a) ∧
    (∀ a, truncations !! a =
          if decide (a ∈ items (agents self))
          then Some (bool_decide (max_steps self ≤ step_count self + 1)) else None) ∧
    (∀ a, infos !! a = (λ _, info_of (step_count self)) <$> actions !! a).
Proof.
  intros Heq. pose proof (step_accepts self actions Heq) as Hok. cbv zeta in Hok.
  eexists _, _, _, _, _. split; [exact Hok|].
  split; [intros a; apply store_all_items|].
  split; [intros a; apply store_all_items|].
  split; [intros a; apply store_all_items|].
  split; [|intros a; apply store_all_items].
  intros a. rewrite mark_all_lookup. by rewrite lookup_empty.
Qed.

Lemma active_has_action self (actions : gmap string string) a :
  dom actions = active_set self → a ∈ items (agents self) → is_Some (actions !! a).
Proof.
  intros Heq Ha. apply elem_of_dom. rewrite Heq. by apply elem_of_list_to_set.
Qed.

(** The agents left by a successful step, with and without truncation. *)
Lemma step_summary self actions :
  dom actions = active_set self →
  let self' := after (SimpleParallelEnv.step actions) self in
  step_count self' = step_count self + 1 ∧
  max_steps self' = max_steps self ∧
  (max_steps self ≤ step_count self + 1 → items (agents self') = []) ∧
  (step_count self + 1 < max_steps self →
   items (agents self') =
     filter (λ a, actions !! a ≠ Some "terminate") (items (agents self))).
Proof.
  intros Heq self'.
  destruct (step_details self actions Heq)
    as (o & r & t & tr & i & Hstep & _ & _ & Ht & Htr & _).
  unfold self', after. rewrite Hstep. simpl.
  split; [done|]. split; [done|]. split.
  - intros Hle. apply filter_none. intros a Ha Halive.
    apply survives_true in Halive. apply Halive. right.
    rewrite Htr, decide_True by done. by rewrite bool_decide_eq_true_2.
  - intros Hlt. apply filter_ext_elem_of. intros a Ha.
    rewrite survives_true, Ht, Htr, decide_True by done.
    rewrite bool_decide_eq_false_2 by lia.
    destruct (active_has_action self actions a Heq Ha) as [act ->]. simpl.
    unfold terminates. split.
    + intros Hno [= ->]. apply Hno. left. by rewrite String.eqb_refl.
    + intros Hno [[= Hyes%String.eqb_eq]|[=]]. by subst.
Qed.

(** X1: a step that passes validation adds one to the step counter and leaves
    the limit, the roster and the metadata alone; the observation of every
    agent reads "Step n result for <agent> after <action>" and its info is
    the one entry step = n, where n is the new value of the counter. *)
Theorem step_stamps_the_step_number self actions :
  dom actions = active_set self →
  ∃ self' observations rewards terminations truncations infos,
    SimpleParallelEnv.step actions self =
      (self', Return (observations, rewards, terminations, truncations, infos)) ∧
    step_count self' = step_count self + 1 ∧
    max_steps self' = max_steps self ∧
    possible_agents self' = possible_agents self ∧
    metadata self' = metadata self ∧
    ∀ a action, actions !! a = Some action →
      observations !! a =
        Some ("Step " +:+ Py.str_int (step_count self + 1) +:+ " result for " +:+
              a +:+ " after " +:+ action) ∧
      infos !! a = Some {["step" := InfoInt (step_count self + 1)]}.
Proof.
  intros Heq.
  destruct (step_details self actions Heq)
    as (o & r & t & tr & i & Hstep & Ho & _ & _ & _ & Hi).
  eexists _, o, r, t, tr, i. split; [exact Hstep|].
  repeat (split; [done|]).
  intros a action Ha. by rewrite Ho, Hi, Ha.
Qed.

(** X2: in a step that passes validation the reward of an agent is 1.0 for
    the action "good", -1.0 for "bad" and 0.0 for every other action,
    "terminate" included, and its termination flag is true exactly for the
    action "terminate". *)
Theorem step_rewards_follow_actions self actions :
  dom actions = active_set self →
  ∃ self' observations rewards terminations truncations infos,
    SimpleParallelEnv.step actions self =
      (self', Return (observations, rewards, terminations, truncations, infos)) ∧
    ∀ a action, actions !! a = Some action →
      (action = "good" → rewards !! a = Some 1%float) ∧
      (action = "bad" → rewards !! a = Some (-1)%float) ∧
      (action ≠ "good" → action ≠ "bad" → rewards !! a = Some 0%float) ∧
      (terminations !! a = Some true ↔ action = "terminate") ∧
      (terminations !! a = Some false ↔ action ≠ "terminate").
Proof.
  intros Heq.
  destruct (step_details self actions Heq)
    as (o & r & t & tr & i & Hstep & _ & Hr & Ht & _ & _).
  eexists _, o, r, t, tr, i. split; [exact Hstep|].
  intros a action Ha. rewrite Hr, Ht, Ha. simpl. unfold reward_of, terminates.
  split; [by intros ->|]. split; [by intros ->|]. split.
  - intros Hgood%String.eqb_neq Hbad%String.eqb_neq. by rewrite Hgood, Hbad.
  - destruct (String.eqb action "terminate") eqn:Hterm.
    + apply String.eqb_eq in Hterm. split; [done|]. split; [done|]. by intros Hne.
    + apply String.eqb_neq in Hterm. split; [|done]. split; [done|]. by intros ->.
Qed.

(** X3: truncation hits every active agent or none.  When the new counter
    reaches the limit, every active agent is flagged truncated and no agent
    is left active, whatever the actions; below the limit no agent is
    flagged, and the agents left are those whose action is not
    "terminate". *)
Theorem step_truncates_all_or_none self actions :
  dom actions = active_set self →
  ∃ self' observations rewards terminations truncations infos,
    SimpleParallelEnv.step actions self =
      (self', Return (observations, rewards, terminations, truncations, infos)) ∧
    (max_steps self ≤ step_count self + 1 →
     (∀ a, a ∈ items (agents self) → truncations !! a = Some true) ∧
     items (agents self') = []) ∧
    (step_count self + 1 < max_steps self →
     (∀ a, a ∈ items (agents self) → truncations !! a = Some false) ∧
     items (agents self') =
       filter (λ a, actions !! a ≠ Some "terminate") (items (agents self))).
Proof.
  intros Heq.
  destruct (step_details self actions Heq)
    as (o & r & t & tr & i & Hstep & _ & _ & _ & Htr & _).
  destruct (step_summary self actions Heq) as (_ & _ & Hall & Hnone).
  unfold after in Hall, Hnone. rewrite Hstep in Hall, Hnone.
  eexists _, o, r, t, tr, i. split; [exact Hstep|]. split.
  - intros Hle. split; [|by apply Hall].
    intros a Ha. rewrite Htr, decide_True by done.
    by rewrite bool_decide_eq_true_2.
  - intros Hlt. split; [|by apply Hnone].
    intros a Ha. rewrite Htr, decide_True by done.
    by rewrite bool_decide_eq_false_2 by lia.
Qed.

(** X4: the terminations, truncations, rewards and infos that a step returns
    are what it leaves in the attributes of the same names, and [state()]
    called next reports the new counter, the agents left and these
    terminations and truncations. *)
Theorem step_stores_what_it_returns self actions :
  dom actions = active_set self →
  ∃ self' observations rews terms truncs infs,
    SimpleParallelEnv.step actions self =
      (self', Return (observations, rews, terms, truncs, infs)) ∧
    terminations self' = terms ∧
    truncations self' = truncs ∧
    rewards self' = rews ∧
    infos self' = infs ∧
    ∃ self'' snapshot,
      SimpleParallelEnv.state self' = (self'', Return snapshot) ∧
      SimpleParallelEnv.state_step_count snapshot = step_count self + 1 ∧
      items (SimpleParallelEnv.state_agents snapshot) = items (agents self') ∧
      SimpleParallelEnv.state_terminations snapshot = terms ∧
      SimpleParallelEnv.state_truncations snapshot = truncs.
Proof.
  intros Heq.
  destruct (step_details self actions Heq) as (o & r & t & tr & i & Hstep & _).
  eexists _, o, r, t, tr, i. split; [exact Hstep|].
  repeat (split; [done|]). by eexists _, _.
Qed.

(** X5: the bodies of the abstract methods never return a value.  The
    abstract [step] validates first: with a key mismatch it raises the
    [ValueError], otherwise [NotImplementedError]; the abstract [reset]
    raises [NotImplementedError].  None of them changes the object. *)
Theorem abstract_methods_never_return self actions seed :
  (dom actions = active_set self →
   ParallelEnv.step actions self = (self, Raise NotImplementedError)) ∧
  (dom actions ≠ active_set self →
   ∃ msg, ParallelEnv.step actions self = (self, Raise (ValueError msg))) ∧
  (∀ self' r, ParallelEnv.step actions self ≠ (self', Return r)) ∧
  after (ParallelEnv.step actions) self = self ∧
  ParallelEnv.reset seed self = (self, Raise NotImplementedError).
Proof.
  assert (dom actions = active_set self →
          ParallelEnv.step actions self = (self, Raise NotImplementedError)) as Hok.
  { intros Heq. unfold ParallelEnv.step, bind. by rewrite validate_accepts. }
  split; [exact Hok|]. split; [|split; [|split; [|done]]].
  - intros Hne. eexists. by apply abstract_step_rejects.
  - intros self' r.
    destruct (decide (dom actions = active_set self)) as [Heq|Hne].
    + by rewrite Hok.
    + by rewrite abstract_step_rejects.
  - unfold after.
    destruct (decide (dom actions = active_set self)) as [Heq|Hne].
    + by rewrite Hok.
    + by rewrite abstract_step_rejects.
Qed.

(** X6: [_validate_actions] returns exactly when the keys of the actions are
    the set of the active agents, it raises nothing but [ValueError], and in
    both cases it leaves the object as it was. *)
Theorem validation_accepts_exactly_the_active_keys self actions :
  (ParallelEnv._validate_actions actions self = (self, Return tt) ↔
   dom actions = active_set self) ∧
  (∀ self' e, ParallelEnv._validate_actions actions self = (self', Raise e) →
              ∃ msg, e = ValueError msg) ∧
  after (ParallelEnv._validate_actions actions) self = self.
Proof.
  destruct (decide (dom actions = active_set self)) as [Heq|Hne].
  - unfold after. rewrite (validate_accepts _ _ Heq).
    split; [done|]. split; [|done]. by intros self' e.
  - unfold after. rewrite (validate_rejects _ _ Hne). split; [|split; [|done]].
    + split; [by intros|done].
    + intros self' e [= _ <-]. by eexists.
Qed.

(** X7: the dictionary [{agent: choose(agent) for agent in env.agents}] is
    accepted by [step] on every object, whatever the choice, also when an
    agent is listed twice or no agent is active. *)
Theorem actions_for_the_active_agents_are_accepted self (choose : string → string) :
  dom (dict_comprehension choose (items (agents self))) = active_set self ∧
  ∃ self' r,
    SimpleParallelEnv.step (dict_comprehension choose (items (agents self))) self =
      (self', Return r).
Proof.
  assert (dom (dict_comprehension choose (items (agents self))) = active_set self)
    as Heq by apply dict_comprehension_dom.
  split; [exact Heq|]. by apply step_returns_iff.
Qed.

(** X8: when no agent is active, [step] accepts the empty dictionary and
    nothing else; with it the five mappings returned are empty, the counter
    still advances and no agent becomes active. *)
Theorem step_without_agents self :
  items (agents self) = [] →
  (∀ actions : gmap string string,
     (∃ self' r, SimpleParallelEnv.step actions self = (self', Return r)) ↔
     actions = ∅) ∧
  ∃ self',
    SimpleParallelEnv.step ∅ self = (self', Return (∅, ∅, ∅, ∅, ∅)) ∧
    step_count self' = step_count self + 1 ∧
    items (agents self') = [].
Proof.
  intros Hnone.
  assert (active_set self = ∅) as Hset by (unfold active_set; by rewrite Hnone).
  split.
  - intros actions. rewrite step_returns_iff, Hset. apply dom_empty_iff_L.
  - assert (dom (∅ : gmap string string) = active_set self) as Heq
      by (by rewrite Hset, dom_empty_L).
    pose proof (step_accepts self ∅ Heq) as Hok. cbv zeta in Hok.
    rewrite map_to_list_empty, Hnone in Hok. simpl in Hok.
    eexists. split; [exact Hok|]. simpl. by rewrite Hnone.
Qed.

Lemma step_many_sublist steps self :
  items (agents (step_many steps self)) `sublist_of` items (agents self).
Proof.
  revert self. induction steps as [|actions steps IH]; intros self; [done|].
  simpl. etrans; [apply IH|]. apply step_sublist.
Qed.

(** X10: an agent that is not active stays out through any number of steps,
    accepted or refused, and every later [step] whose actions name it raises
    the [ValueError], whose message shows the agent. *)
Theorem inactive_agent_stays_out self a steps :
  a ∉ items (agents self) →
  let self' := step_many steps self in
  (a ∉ items (agents self')) ∧
  (∀ actions : gmap string string, is_Some (actions !! a) →
     ∃ msg,
       SimpleParallelEnv.step actions self' = (self', Raise (ValueError msg)) ∧
       Py.contains msg (Py.repr_str a)).
Proof.
  intros Hout self'.
  assert (a ∉ items (agents self')) as Hout'.
  { intros Hin. apply Hout. eapply elem_of_sublist; [exact Hin|].
    apply step_many_sublist. }
  split; [exact Hout'|]. intros actions Ha.
  assert (a ∈ dom actions ∖ active_set self') as Hextra.
  { apply elem_of_difference. split; [by apply elem_of_dom|].
    unfold active_set. by rewrite elem_of_list_to_set. }
  assert (dom actions ≠ active_set self') as Hne.
  { intros Heq. rewrite Heq in Hextra. apply elem_of_difference in Hextra. tauto. }
  eexists. split; [by apply step_rejects|].
  by apply mismatch_message_names_extra.
Qed.

(** X11: [_remove_dead_agents] touches nothing but the active-agents list:
    the metadata, the roster, the counter, the limit and the four signal
    mappings are as before.  It rebinds the list to a new list object each
    time, and running it again with the same flags removes nobody else.  On
    every object that a sequence of calls can reach, the new list is neither
    the list that was active nor the roster. *)
Theorem remove_dead_agents_twice calls :
  (∀ self : Env,
     let once := after ParallelEnv._remove_dead_agents self in
     let twice := after ParallelEnv._remove_dead_agents once in
     items (agents twice) = items (agents once) ∧
     list_id (agents once) = next_id self ∧
     list_id (agents twice) ≠ list_id (agents once) ∧
     metadata once = metadata self ∧
     possible_agents once = possible_agents self ∧
     step_count once = step_count self ∧
     max_steps once = max_steps self ∧
     terminations once = terminations self ∧
     truncations once = truncations self ∧
     rewards once = rewards self ∧
     infos once = infos self) ∧
  let self := run calls in
  let once := after ParallelEnv._remove_dead_agents self in
  let twice := after ParallelEnv._remove_dead_agents once in
  list_id (agents once) ≠ list_id (agents self) ∧
  list_id (agents once) ≠ list_id (possible_agents self) ∧
  list_id (agents twice) ≠ list_id (agents self) ∧
  list_id (agents twice) ≠ list_id (possible_agents self) ∧
  list_id (agents twice) ≠ list_id (agents once).
Proof.
  split.
  - intros self. simpl. split; [|split; [done|split; [lia|done]]].
    apply filter_all. intros a Ha. by apply list_elem_of_filter in Ha as [? _].
  - intros self. destruct (run_ok calls) as [_ Hrid Haid _].
    fold self in Hrid, Haid. simpl. repeat split; lia.
Qed.

Lemma drive_round (choose : string → string) self :
  let self' := after (SimpleParallelEnv.step
                 (dict_comprehension choose (items (agents self)))) self in
  step_count self' = step_count self + 1 ∧
  max_steps self' = max_steps self ∧
  (max_steps self ≤ step_count self + 1 → items (agents self') = []) ∧
  ((∀ a, a ∈ items (agents self) → choose a ≠ "terminate") →
   step_count self + 1 < max_steps self →
   items (agents self') = items (agents self)).
Proof.
  intros self'.
  destruct (step_summary self (dict_comprehension choose (items (agents self))))
    as (Hcount & Hmax & Hall & Hnone); [apply dict_comprehension_dom|].
  split; [done|]. split; [done|]. split; [done|].
  intros Hchoose Hlt. unfold self'. rewrite (Hnone Hlt).
  apply filter_all. intros a Ha.
  rewrite dict_comprehension_lookup, decide_True by done.
  intros [= Heq]. by apply (Hchoose a).
Qed.

(** X12: driving the environment for [n] rounds with an action for every
    active agent never raises: the counter has advanced by [n] and the limit
    is unchanged.  While the counter stays below the limit and no chosen
    action is "terminate", the active agents are unchanged; once the counter
    has reached the limit, no agent is active. *)
Theorem driven_episode (choose : string → string) n self :
  let self' := drive choose n self in
  step_count self' = step_count self + Z.of_nat n ∧
  max_steps self' = max_steps self ∧
  ((∀ a, a ∈ items (agents self) → choose a ≠ "terminate") →
   step_count self + Z.of_nat n < max_steps self →
   items (agents self') = items (agents self)) ∧
  ((0 < n)%nat → max_steps self ≤ step_count self + Z.of_nat n →
   items (agents self') = []).
Proof.
  revert self. induction n as [|n IH]; intros self.
  { simpl. split; [lia|]. split; [done|]. split; [done|]. lia. }
  destruct (drive_round choose self) as (Hcount & Hmax & Hall & Hsame).
  set (next := after (SimpleParallelEnv.step
                 (dict_comprehension choose (items (agents self)))) self) in *.
  destruct (IH next) as (IHcount & IHmax & IHsame & IHall).
  change (drive choose (S n) self) with (drive choose n next). cbv zeta.
  split; [lia|]. split; [congruence|]. split.
  - intros Hchoose Hlt.
    assert (items (agents next) = items (agents self)) as Hnext
      by (apply Hsame; [done|lia]).
    rewrite <- Hnext. apply IHsame; [|lia].
    intros a Ha. apply Hchoose. by rewrite <- Hnext.
  - intros _ Hle. destruct n as [|n].
    + simpl. apply Hall. lia.
    + apply IHall; lia.
Qed.

Lemma run_call_sublist c self :
  items (agents (run_call c self)) `sublist_of` items (agents self).
Proof.
  destruct c as [seed|actions| | | |n]; unfold run_call.
  - unfold after. by rewrite reset_raises.
  - apply step_sublist.
  - done.
  - done.
  - done.
  - done.
Qed.

Lemma run_from_sublist calls self :
  items (agents (foldl (λ self c, run_call c self) self calls))
    `sublist_of` items (agents self).
Proof.
  revert self. induction calls as [|c calls IH]; intros self; [done|].
  simpl. etrans; [apply IH|]. apply run_call_sublist.
Qed.

(** X9: [reset] raises [NotImplementedError] on every object, out of its
    call of [super().reset(seed)], and changes nothing.  So no call brings an
    agent back: along every sequence of calls, resets included, the active
    agents after further calls are a subsequence of the active agents before
    them, and an agent that is not active stays out. *)
Theorem reset_raises_and_revives_nobody :
  (∀ seed self,
     SimpleParallelEnv.reset seed self = (self, Raise NotImplementedError)) ∧
  (∀ calls more,
     items (agents (run (calls ++ more))) `sublist_of` items (agents (run calls))) ∧
  (∀ calls more a,
     a ∉ items (agents (run calls)) → a ∉ items (agents (run (calls ++ more)))).
Proof.
  assert (∀ calls more,
            items (agents (run (calls ++ more)))
              `sublist_of` items (agents (run calls))) as Hsub.
  { intros calls more. unfold run. rewrite foldl_app. apply run_from_sublist. }
  split; [apply reset_raises|]. split; [exact Hsub|].
  intros calls more a Hout Hin. apply Hout.
  eapply elem_of_sublist; [exact Hin|apply Hsub].
Qed.

Lemma run_call_count c self n :
  0 ≤ step_count self ≤ Z.of_nat n →
  step_count self ≤ step_count (run_call c self) ∧
  step_count (run_call c self) ≤
    Z.of_nat match c with
             | CallStep _ => S n
             | _ => n
             end.
Proof.
  intros Hbound. destruct c as [seed|actions| | | |m]; unfold run_call, after.
  - rewrite reset_raises. simpl. lia.
  - destruct (decide (dom actions = active_set self)) as [Heq|Hne].
    + pose proof (step_accepts self actions Heq) as Hok. cbv zeta in Hok.
      rewrite Hok. simpl. lia.
    + rewrite step_rejects by done. simpl. lia.
  - simpl. lia.
  - simpl. lia.
  - simpl. lia.
  - simpl. lia.
Qed.

Lemma run_from_count calls self n :
  0 ≤ step_count self ≤ Z.of_nat n →
  step_count self ≤
    step_count (foldl (λ self c, run_call c self) self calls) ∧
  step_count (foldl (λ self c, run_call c self) self calls) ≤
    Z.of_nat (foldl (λ n c, match c with
                            | CallStep _ => S n
                            | _ => n
                            end) n calls).
Proof.
  revert self n. induction calls as [|c calls IH]; intros self n Hbound.
  { simpl. lia. }
  simpl. destruct (run_call_count c self n Hbound) as [Hup Hle].
  destruct (IH (run_call c self)
              match c with CallStep _ => S n | _ => n end) as [IHup IHle]; lia.
Qed.

(** X13: on every object that a sequence of calls can reach, the step
    counter is not negative and is at most the number of [step] calls made.
    It never goes back: further calls, resets included, leave it at least as
    large, and a [reset] leaves it as it is. *)
Theorem step_count_never_goes_back calls more :
  0 ≤ step_count (run calls) ≤ Z.of_nat (step_calls calls) ∧
  step_count (run calls) ≤ step_count (run (calls ++ more)) ∧
  (∀ seed, step_count (run (calls ++ [CallReset seed])) = step_count (run calls)).
Proof.
  assert (0 ≤ step_count (run calls) ≤ Z.of_nat (step_calls calls)) as Hbound.
  { destruct (run_from_count calls SimpleParallelEnv.new O) as [Hup Hle];
      [simpl; lia|].
    unfold run, step_calls. simpl in Hup. lia. }
  split; [exact Hbound|]. split.
  - unfold run at 2. rewrite foldl_app.
    by destruct (run_from_count more (run calls) (step_calls calls) Hbound).
  - intros seed. unfold run at 1. rewrite foldl_app. simpl.
    unfold after. by rewrite reset_raises.
Qed.

(** X14: on every object that a sequence of calls can reach, [state()]
    returns the step counter, the stored terminations and truncations, and a
    copy of the active agents: a list with the same items that is a new
    object, neither the active-agents list nor the roster.  The attributes of
    the environment, metadata included, are unchanged. *)
Theorem state_returns_a_snapshot calls :
  let self := run calls in
  ∃ self' snapshot,
    SimpleParallelEnv.state self = (self', Return snapshot) ∧
    SimpleParallelEnv.state_step_count snapshot = step_count self ∧
    items (SimpleParallelEnv.state_agents snapshot) = items (agents self) ∧
    list_id (SimpleParallelEnv.state_agents snapshot) ≠ list_id (agents self) ∧
    list_id (SimpleParallelEnv.state_agents snapshot) ≠
      list_id (possible_agents self) ∧
    SimpleParallelEnv.state_terminations snapshot = terminations self ∧
    SimpleParallelEnv.state_truncations snapshot = truncations self ∧
    metadata self' = metadata self ∧
    agents self' = agents self ∧
    possible_agents self' = possible_agents self ∧
    step_count self' = step_count self ∧
    max_steps self' = max_steps self ∧
    terminations self' = terminations self ∧
    truncations self' = truncations self ∧
    rewards self' = rewards self ∧
    infos self' = infos self.
Proof.
  intros self.
  destruct (run_ok calls) as [_ Hrid Haid _].
  fold self in Hrid, Haid.
  eexists _, _. split; [reflexivity|]. simpl.
  split; [done|]. split; [done|]. split; [lia|]. split; [lia|]. done.
Qed.

(** ** The further properties at concrete inputs *)

Lemma list_not_elem_of (a : string) (l : list string) :
  bool_decide (a ∈ l) = false → a ∉ l.
Proof. apply bool_decide_eq_false. Qed.

Lemma list_elem_of (a : string) (l : list string) :
  bool_decide (a ∈ l) = true → a ∈ l.
Proof. apply bool_decide_eq_true. Qed.

(** X1 at the first step of a new environment. *)
Lemma step_stamps_the_step_number_witness :
  ∃ self' observations rewards terminations truncations infos,
    SimpleParallelEnv.step mixed_actions SimpleParallelEnv.new =
      (self', Return (observations, rewards, terminations, truncations, infos)) ∧
    step_count self' = 1 ∧
    observations !! "agent2" = Some "Step 1 result for agent2 after bad" ∧
    infos !! "agent2" = Some {["step" := InfoInt 1]}.
Proof.
  assert (dom mixed_actions = active_set SimpleParallelEnv.new) as Hdom
    by (vm_compute; reflexivity).
  destruct (step_stamps_the_step_number SimpleParallelEnv.new mixed_actions Hdom)
    as (self' & o & r & t & tr & i & Hstep & Hcount & _ & _ & _ & Hstamp).
  exists self', o, r, t, tr, i. split; [exact Hstep|].
  split; [rewrite Hcount; vm_compute; reflexivity|].
  destruct (Hstamp "agent2" "bad") as [Ho Hi]; [vm_compute; reflexivity|].
  rewrite Ho, Hi. split; vm_compute; reflexivity.
Defined.

(** X2 at the step in which agent1 terminates. *)
Lemma step_rewards_follow_actions_witness :
  ∃ self' observations rewards terminations truncations infos,
    SimpleParallelEnv.step terminate_actions SimpleParallelEnv.new =
      (self', Return (observations, rewards, terminations, truncations, infos)) ∧
    rewards !! "agent1" = Some 0%float ∧
    terminations !! "agent1" = Some true ∧
    rewards !! "agent2" = Some 1%float ∧
    terminations !! "agent2" = Some false.
Proof.
  assert (dom terminate_actions = active_set SimpleParallelEnv.new) as Hdom
    by (vm_compute; reflexivity).
  destruct (step_rewards_follow_actions SimpleParallelEnv.new terminate_actions Hdom)
    as (self' & o & r & t & tr & i & Hstep & Hall).
  exists self', o, r, t, tr, i. split; [exact Hstep|].
  destruct (Hall "agent1" "terminate") as (_ & _ & Hzero & Hterm & _);
    [vm_compute; reflexivity|].
  destruct (Hall "agent2" "good") as (Hone & _ & _ & _ & Hstay);
    [vm_compute; reflexivity|].
  split; [apply Hzero; discriminate|]. split; [by apply Hterm|].
  split; [by apply Hone|]. apply Hstay. discriminate.
Defined.

(** X3 with the limit set to one step: the first step empties the
    environment. *)
Lemma step_truncates_all_or_none_witness :
  ∃ self' observations rewards terminations truncations infos,
    SimpleParallelEnv.step mixed_actions
      (after (assign_max_steps 1) SimpleParallelEnv.new) =
      (self', Return (observations, rewards, terminations, truncations, infos)) ∧
    truncations !! "agent3" = Some true ∧
    items (agents self') = [].
Proof.
  assert (dom mixed_actions =
          active_set (after (assign_max_steps 1) SimpleParallelEnv.new)) as Hdom
    by (vm_compute; reflexivity).
  destruct (step_truncates_all_or_none _ mixed_actions Hdom)
    as (self' & o & r & t & tr & i & Hstep & Hall & _).
  exists self', o, r, t, tr, i. split; [exact Hstep|].
  destruct Hall as [Hflags Hnone]; [by vm_compute|].
  split; [|exact Hnone].
  apply Hflags. apply list_elem_of. vm_compute; reflexivity.
Defined.

(** X4 at the step in which agent1 terminates. *)
Lemma step_stores_what_it_returns_witness :
  ∃ self'' snapshot,
    SimpleParallelEnv.state
      (after (SimpleParallelEnv.step terminate_actions) SimpleParallelEnv.new) =
      (self'', Return snapshot) ∧
    SimpleParallelEnv.state_step_count snapshot = 1.
Proof.
  assert (dom terminate_actions = active_set SimpleParallelEnv.new) as Hdom
    by (vm_compute; reflexivity).
  destruct (step_stores_what_it_returns SimpleParallelEnv.new terminate_actions Hdom)
    as (self' & o & r & t & tr & i & Hstep & _ & _ & _ & _ & Hstate).
  destruct Hstate as (self'' & snapshot & Hstate & Hcount & _).
  exists self'', snapshot. unfold after. rewrite Hstep.
  split; [exact Hstate|]. rewrite Hcount. vm_compute; reflexivity.
Defined.

(** X8 after the step that truncated every agent. *)
Lemma step_without_agents_witness :
  items (agents (after (SimpleParallelEnv.step mixed_actions)
                   (after (assign_max_steps 1) SimpleParallelEnv.new))) = [] ∧
  ∃ self',
    SimpleParallelEnv.step ∅
      (after (SimpleParallelEnv.step mixed_actions)
         (after (assign_max_steps 1) SimpleParallelEnv.new)) =
      (self', Return (∅, ∅, ∅, ∅, ∅)) ∧
    step_count self' = 2.
Proof.
  assert (items (agents (after (SimpleParallelEnv.step mixed_actions)
                   (after (assign_max_steps 1) SimpleParallelEnv.new))) = [])
    as Hnone by (vm_compute; reflexivity).
  split; [exact Hnone|].
  destruct (step_without_agents _ Hnone) as [_ (self' & Hstep & Hcount & _)].
  exists self'. split; [exact Hstep|]. rewrite Hcount. vm_compute; reflexivity.
Defined.

(** X10 for agent1 after it terminated, through one more step of the two
    other agents. *)
Lemma inactive_agent_stays_out_witness :
  ("agent1" ∉ items (agents
     (step_many [{["agent2" := "good"; "agent3" := "good"]}]
        (after (SimpleParallelEnv.step terminate_actions) SimpleParallelEnv.new)))) ∧
  ∃ msg,
    result (SimpleParallelEnv.step terminate_actions)
      (step_many [{["agent2" := "good"; "agent3" := "good"]}]
         (after (SimpleParallelEnv.step terminate_actions) SimpleParallelEnv.new)) =
    Raise (ValueError msg).
Proof.
  assert ("agent1" ∉ items (agents
            (after (SimpleParallelEnv.step terminate_actions) SimpleParallelEnv.new)))
    as Hout by (apply list_not_elem_of; vm_compute; reflexivity).
  pose proof (inactive_agent_stays_out _ "agent1"
                [{["agent2" := "good"; "agent3" := "good"]}] Hout) as H.
  cbv zeta in H. destruct H as [Hstill Hraise].
  split; [exact Hstill|].
  destruct (Hraise terminate_actions) as (msg & Hstep & _).
  { exists "terminate". vm_compute; reflexivity. }
  exists msg. unfold result. by rewrite Hstep.
Defined.

(** The step counter after a step, a refused step, a [reset] and one more
    step: the [reset] has not set it back. *)
Example step_count_after_reset :
  step_count (run [CallStep mixed_actions; CallStep ∅; CallReset None;
                   CallStep mixed_actions]) = 2.
Proof. vm_compute; reflexivity. Qed.

(** ** What [step] does not depend on, and how many entries it returns *)

(** X15: [step] never reads the signal mappings left by earlier calls: with
    any terminations, truncations, rewards and infos stored in the object,
    it returns or raises the same, leaves the same agents active and, when it
    returns, leaves the same object.  A flag left over from an earlier
    episode removes nobody. *)
Theorem step_ignores_stored_signals self actions stale_terminations
    stale_truncations stale_rewards stale_infos :
  let stale :=
    set_terminations stale_terminations
      (set_truncations stale_truncations
         (set_rewards stale_rewards (set_infos stale_infos self))) in
  result (SimpleParallelEnv.step actions) stale =
    result (SimpleParallelEnv.step actions) self ∧
  items (agents (after (SimpleParallelEnv.step actions) stale)) =
    items (agents (after (SimpleParallelEnv.step actions) self)) ∧
  (dom actions = active_set self →
   after (SimpleParallelEnv.step actions) stale =
     after (SimpleParallelEnv.step actions) self).
Proof.
  intros stale. unfold result, after.
  destruct (decide (dom actions = active_set self)) as [Heq|Hne].
  - pose proof (step_accepts self actions Heq) as Hok.
    pose proof (step_accepts stale actions Heq) as Hstale.
    cbv zeta in Hok, Hstale. rewrite Hok, Hstale. done.
  - rewrite (step_rejects self) by done.
    rewrite (step_rejects stale) by done. done.
Qed.

(** X16: on every object that a sequence of calls can reach, no agent is
    listed twice among the active agents, so a [step] that returns was given
    as many actions as there are active agents, and each of the five mappings
    it returns has that many entries. *)
Theorem step_returns_one_entry_per_agent calls (actions : gmap string string) :
  let self := run calls in
  NoDup (items (agents self)) ∧
  ∀ self' observations rewards terminations truncations infos,
    SimpleParallelEnv.step actions self =
      (self', Return (observations, rewards, terminations, truncations, infos)) →
    size actions = length (items (agents self)) ∧
    size observations = length (items (agents self)) ∧
    size rewards = length (items (agents self)) ∧
    size terminations = length (items (agents self)) ∧
    size truncations = length (items (agents self)) ∧
    size infos = length (items (agents self)).
Proof.
  intros self.
  destruct (run_ok calls) as [Hroster _ _ Hsub].
  fold self in Hroster, Hsub.
  assert (NoDup (items (agents self))) as Hnd.
  { eapply sublist_NoDup; [|exact Hsub]. rewrite Hroster. apply NoDup_roster. }
  split; [exact Hnd|].
  intros self' o r t tr i Hstep.
  assert (dom actions = active_set self) as Heq.
  { apply step_returns_iff. eauto. }
  assert (size (active_set self) = length (items (agents self))) as Hsize
    by (by apply size_list_to_set).
  pose proof (step_accepts self actions Heq) as Hok. cbv zeta in Hok.
  rewrite Hok in Hstep.
  apply step_return_inj in Hstep as [_ Hout].
  apply step_result_inj in Hout as (<- & <- & <- & <- & <-).
  rewrite <- !size_dom, !store_all_dom, mark_all_dom, Heq.
  fold (active_set self). by rewrite Hsize.
Qed.


(** After the step in which agent1 terminates two agents are left, and the
    next step returns two entries. *)
Example two_entries_for_two_agents :
  ∃ self' observations rewards terminations truncations infos,
    SimpleParallelEnv.step {["agent2" := "good"; "agent3" := "good"]}
      (run [CallReset None; CallStep terminate_actions]) =
      (self', Return (observations, rewards, terminations, truncations, infos)) ∧
    size observations = 2%nat.
Proof.
  destruct (step_from (run [CallReset None; CallStep terminate_actions])
              {["agent2" := "good"; "agent3" := "good"]} 1 10
              ["agent2"; "agent3"])
    as (self' & Hstep & _);
    [vm_compute; reflexivity|vm_compute; reflexivity|vm_compute; reflexivity|
     vm_compute; reflexivity|].
  unfold step_outputs in Hstep.
  exists self'. eexists _, _, _, _, _. split; [exact Hstep|].
  vm_compute; reflexivity.
Qed.
